(** * FireBlog (src/App.js): the subscription synchronisation core

    A shallow embedding of the logic of the [App] component: the snapshot
    callbacks of the three Firestore listeners, the event handlers, the
    comment-listener effect with its cleanup, the two forms and
    [renderView].

    React state is a record; a handler or callback is a function from
    the values captured by its closure to the ordered list of things it
    does (state setter calls, calls to Firebase, console output).  The
    outcome of an awaited Firebase call is an argument of the handler. *)

From Stdlib Require Import ZArith Lia.
From stdpp Require Import gmap strings list fin_maps sorting.

Local Open Scope Z_scope.

(** ** JavaScript values held in Firestore documents *)

(** A Firestore timestamp: whole seconds since the epoch and the
    nanoseconds within the second.  The code reads [createdAt.seconds]
    only. *)
Record Timestamp := { seconds : Z; nanoseconds : Z }.

Inductive value :=
| VUndefined
| VNull
| VStr (s : string)
| VNum (n : Z)
| VTimestamp (t : Timestamp)
| VServerTimestamp.

#[global] Instance Timestamp_eq_dec : EqDecision Timestamp.
Proof. solve_decision. Defined.

#[global] Instance value_eq_dec : EqDecision value.
Proof. solve_decision. Defined.

(** A JS object used as a record of fields: [doc.data()], a post, a
    comment, a profile. *)
Abbreviation fields := (gmap string value).

(** A document of a query snapshot: [doc.id] and [doc.data()]. *)
Record QueryDocumentSnapshot := {
  doc_id : string;
  doc_data : fields;
}.

(** Truthiness of a string ([''] is falsy) and of a nullable string. *)
Definition truthy_str (s : string) : bool :=
  match s with EmptyString => false | _ => true end.

Definition truthy (o : option string) : bool :=
  match o with Some s => truthy_str s | None => false end.

(** [{ id: doc.id, ...doc.data() }]: the spread comes second, so a field
    of the data named [id] overrides [doc.id]. *)
Definition with_id (d : QueryDocumentSnapshot) : fields :=
  doc_data d ∪ {[ "id"%string := VStr (doc_id d) ]}.

(** [x.createdAt?.seconds]: [undefined] unless [createdAt] is a
    timestamp. *)
Definition createdAt_seconds (x : fields) : option Z :=
  match x !! "createdAt"%string with
  | Some (VTimestamp t) => Some (seconds t)
  | _ => None
  end.

(** [n || 0] for a number or [undefined]. *)
Definition or_zero (n : option Z) : Z :=
  match n with
  | Some z => if z =? 0 then 0 else z
  | None => 0
  end.

(** [(x.createdAt?.seconds || 0)] *)
Definition sort_key (x : fields) : Z := or_zero (createdAt_seconds x).

(** The instant a timestamp stands for, in nanoseconds since the epoch,
    and the instant of the [createdAt] of a document, 0 for a document
    without one: the value "sorted by createdAt" speaks of. *)
Definition instant (t : Timestamp) : Z :=
  seconds t * 1000000000 + nanoseconds t.

Definition createdAt_instant (x : fields) : Z :=
  match x !! "createdAt"%string with
  | Some (VTimestamp t) => instant t
  | _ => 0
  end.

(** ** [Array.prototype.sort]

    The sort of the language is stable; with a comparator that is
    consistent, the sorted array is the one stable insertion gives. *)
Section JsSort.
Context {A : Type} (cmp : A -> A -> Z).

Fixpoint js_insert (x : A) (l : list A) : list A :=
  match l with
  | [] => [x]
  | y :: l' => if cmp x y <=? 0 then x :: l else y :: js_insert x l'
  end.

Definition js_sort (l : list A) : list A := foldr js_insert [] l.
End JsSort.

(** The comparators of the two listeners. *)
Definition posts_cmp (a b : fields) : Z := sort_key b - sort_key a.
Definition comments_cmp (a b : fields) : Z := sort_key a - sort_key b.

(** ** Sessions *)

(** The user object of the auth service, as far as the code reads it. *)
Record User := {
  uid : string;
  displayName : option string;
  email : option string;
  isAnonymous : bool;
}.

(** ** Configuration read from the environment at start-up *)

Record Config := {
  appId : string;
  initialAuthToken : option string;
}.

(** ** References into the store *)

Inductive Ref :=
| UserDoc (uid : string)
| PostsCollection
| CommentsCollection (postId : string).

#[global] Instance Ref_eq_dec : EqDecision Ref.
Proof. solve_decision. Defined.

Definition usersCollectionPath (cfg : Config) : string :=
  "/artifacts/" +:+ appId cfg +:+ "/public/data/users".
Definition postsCollectionPath (cfg : Config) : string :=
  "/artifacts/" +:+ appId cfg +:+ "/public/data/posts".
Definition getCommentsCollectionPath (cfg : Config) (postId : string) : string :=
  "/artifacts/" +:+ appId cfg +:+ "/public/data/posts/" +:+ postId +:+ "/comments".

(** The path a reference stands for. *)
Definition path_of (cfg : Config) (r : Ref) : string :=
  match r with
  | UserDoc u => usersCollectionPath cfg +:+ "/" +:+ u
  | PostsCollection => postsCollectionPath cfg
  | CommentsCollection p => getCommentsCollectionPath cfg p
  end.

(** ** Component state of [App] *)

Record AppState := {
  user : option User;
  userData : option fields;
  isAuthReady : bool;
  view : string;
  selectedPostId : option string;
  posts : list fields;
  comments : list fields;
  loading : bool;
  error : option string;
}.

(** The [useState] initial values. *)
Definition initial : AppState := {|
  user := None;
  userData := None;
  isAuthReady := false;
  view := "HOME";
  selectedPostId := None;
  posts := [];
  comments := [];
  loading := false;
  error := None;
|}.

(** ** What a handler does *)

(** How an awaited promise settles. *)
Inductive result :=
| Resolved
| Rejected (message : string).

(** Calls into the auth service and the store. *)
Inductive call :=
| SignOut
| SignInAnonymously
| SignInWithCustomToken (token : string)
| SetDoc (ref : Ref) (data : fields) (merge : bool)
| AddDoc (ref : Ref) (data : fields)
| OnSnapshot (ref : Ref)
| Unsubscribe (ref : Ref).

Inductive action :=
| SetUser (u : option User)
| SetUserData (d : option fields)
| SetIsAuthReady (b : bool)
| SetView (v : string)
| SetSelectedPostId (p : option string)
| SetPosts (l : list fields)
| SetComments (l : list fields)
| SetLoading (b : bool)
| SetError (e : option string)
| Await (c : call) (r : result)
| Call (c : call)
| ConsoleError (label : string).

(** The effect of one action on the component state: a setter replaces
    its field, everything else leaves the state alone. *)
Definition apply (st : AppState) (a : action) : AppState :=
  match a with
  | SetUser u =>
      {| user := u; userData := userData st; isAuthReady := isAuthReady st;
         view := view st; selectedPostId := selectedPostId st;
         posts := posts st; comments := comments st;
         loading := loading st; error := error st |}
  | SetUserData d =>
      {| user := user st; userData := d; isAuthReady := isAuthReady st;
         view := view st; selectedPostId := selectedPostId st;
         posts := posts st; comments := comments st;
         loading := loading st; error := error st |}
  | SetIsAuthReady b =>
      {| user := user st; userData := userData st; isAuthReady := b;
         view := view st; selectedPostId := selectedPostId st;
         posts := posts st; comments := comments st;
         loading := loading st; error := error st |}
  | SetView v =>
      {| user := user st; userData := userData st; isAuthReady := isAuthReady st;
         view := v; selectedPostId := selectedPostId st;
         posts := posts st; comments := comments st;
         loading := loading st; error := error st |}
  | SetSelectedPostId p =>
      {| user := user st; userData := userData st; isAuthReady := isAuthReady st;
         view := view st; selectedPostId := p;
         posts := posts st; comments := comments st;
         loading := loading st; error := error st |}
  | SetPosts l =>
      {| user := user st; userData := userData st; isAuthReady := isAuthReady st;
         view := view st; selectedPostId := selectedPostId st;
         posts := l; comments := comments st;
         loading := loading st; error := error st |}
  | SetComments l =>
      {| user := user st; userData := userData st; isAuthReady := isAuthReady st;
         view := view st; selectedPostId := selectedPostId st;
         posts := posts st; comments := l;
         loading := loading st; error := error st |}
  | SetLoading b =>
      {| user := user st; userData := userData st; isAuthReady := isAuthReady st;
         view := view st; selectedPostId := selectedPostId st;
         posts := posts st; comments := comments st;
         loading := b; error := error st |}
  | SetError e =>
      {| user := user st; userData := userData st; isAuthReady := isAuthReady st;
         view := view st; selectedPostId := selectedPostId st;
         posts := posts st; comments := comments st;
         loading := loading st; error := e |}
  | Await _ _ | Call _ | ConsoleError _ => st
  end.

Definition run (acts : list action) (st : AppState) : AppState :=
  foldl apply st acts.

(** The calls made to Firebase, in order. *)
Definition firebase_calls (acts : list action) : list call :=
  omap (fun a => match a with
                 | Await c _ | Call c => Some c
                 | _ => None
                 end) acts.

(** [await c] outside a [try]: when the promise rejects, the rest of
    the async function does not run. *)
Definition await (c : call) (r : result) (rest : list action) : list action :=
  Await c r :: match r with
               | Resolved => rest
               | Rejected _ => []
               end.

(** [try { await c; body } catch (e) { handler e.message }] *)
Definition try_await (c : call) (r : result) (body : list action)
    (handler : string -> list action) : list action :=
  Await c r :: match r with
               | Resolved => body
               | Rejected message => handler message
               end.

(** A nullable string as a field value. *)
Definition js_string (o : option string) : value :=
  match o with
  | Some s => VStr s
  | None => VNull
  end.

(** [o.k] on an object: [undefined] when the property is missing. *)
Definition get (o : fields) (k : string) : value :=
  default VUndefined (o !! k).

(** ** Auth listener: the callback of [onAuthStateChanged]

    [u] is the user the listener is called with; [token_r] and [anon_r]
    say how the two sign-in promises settle if they are awaited. *)
Definition signInAnonymously_then_ready (anon_r : result) : list action :=
  await SignInAnonymously anon_r [SetIsAuthReady true].

Definition authStateChanged (cfg : Config) (u : option User)
    (token_r anon_r : result) : list action :=
  match u with
  | Some _ => [SetUser u; SetIsAuthReady true]
  | None =>
      match initialAuthToken cfg with
      | Some token =>
          if truthy_str token then
            try_await (SignInWithCustomToken token) token_r
              [SetIsAuthReady true]
              (fun _ => ConsoleError "Error signing in with custom token:"
                        :: signInAnonymously_then_ready anon_r)
          else signInAnonymously_then_ready anon_r
      | None => signInAnonymously_then_ready anon_r
      end
  end.

(** ** User data listener: the snapshot callback

    [doc] is [Some (doc.data())] when [doc.exists()]. *)
Definition default_profile (u : User) : fields :=
  {[ "displayName"%string :=
       VStr (match displayName u with
             | Some n => if truthy_str n then n else "Anonymous User"
             | None => "Anonymous User"
             end);
     "email"%string := js_string (email u) ]}.

Definition userDataSnapshot (u : User) (doc : option fields) : list action :=
  match doc with
  | Some d => [SetUserData (Some d)]
  | None => [Call (SetDoc (UserDoc (uid u)) (default_profile u) true)]
  end.

(** ** Posts listener: snapshot and error callbacks *)
Definition postsSnapshot (docs : list QueryDocumentSnapshot) : list action :=
  [SetPosts (js_sort posts_cmp (map with_id docs)); SetLoading false].

Definition postsError : list action :=
  [ConsoleError "Error fetching posts: ";
   SetError (Some "Failed to load posts."%string);
   SetLoading false].

(** ** Comments listener: snapshot and error callbacks *)
Definition commentsSnapshot (docs : list QueryDocumentSnapshot) : list action :=
  [SetComments (js_sort comments_cmp (map with_id docs)); SetLoading false].

Definition commentsError : list action :=
  [ConsoleError "Error fetching comments: ";
   SetError (Some "Failed to load comments."%string);
   SetLoading false].

(** ** Event handlers of [App]

    A handler reads the component state [st] of the render that created
    it. *)
Definition handleSignOut (out_r anon_r : result) : list action :=
  await SignOut out_r
    ([SetUser None; SetUserData None; SetView "HOME"]
     ++ await SignInAnonymously anon_r []).

Definition handleNavigate (targetView : string) : list action :=
  [SetError None]
  ++ (if String.eqb targetView "HOME" then [SetSelectedPostId None] else [])
  ++ [SetView targetView].

Definition handleSelectPost (postId : string) : list action :=
  [SetSelectedPostId (Some postId); SetView "POST_DETAIL"].

Definition handleUpdateProfile (st : AppState) (newDisplayName : string)
    (r : result) : list action :=
  match user st with
  | None => []
  | Some u =>
      [SetLoading true; SetError None]
      ++ try_await
           (SetDoc (UserDoc (uid u))
                   {[ "displayName"%string := VStr newDisplayName ]} true) r
           []
           (fun message => [ConsoleError "Profile update error: ";
                            SetError (Some message)])
      ++ [SetLoading false]
  end.

Definition handleCreatePost (title content authorId : string)
    (authorName : value) (r : result) : list action :=
  [SetLoading true; SetError None]
  ++ try_await
       (AddDoc PostsCollection
               {[ "title"%string := VStr title;
                  "content"%string := VStr content;
                  "authorId"%string := VStr authorId;
                  "authorName"%string := authorName;
                  "createdAt"%string := VServerTimestamp ]}) r
       [SetView "HOME"]
       (fun message => [ConsoleError "Create post error: ";
                        SetError (Some message)])
  ++ [SetLoading false].

Definition handleAddComment (st : AppState) (text authorId : string)
    (authorName : value) (r : result) : list action :=
  match selectedPostId st with
  | None => []
  | Some postId =>
      if truthy_str postId then
        [SetLoading true; SetError None]
        ++ try_await
             (AddDoc (CommentsCollection postId)
                     {[ "text"%string := VStr text;
                        "authorId"%string := VStr authorId;
                        "authorName"%string := authorName;
                        "createdAt"%string := VServerTimestamp ]}) r
             []
             (fun message => [ConsoleError "Add comment error: ";
                              SetError (Some message)])
        ++ [SetLoading false]
      else []
  end.

(** ** The comments listener effect

    [useEffect(..., [isAuthReady, selectedPostId])]: what the effect does
    when it runs, and the cleanup function it returns ([cleanup = []]
    when it returns none). *)
Record Effect := {
  body : list action;
  cleanup : list action;
}.

Definition commentsEffect (ready : bool) (selected : option string) : Effect :=
  if negb ready || negb (truthy selected) then
    {| body := [SetComments []]; cleanup := [] |}
  else
    match selected with
    | Some postId =>
        {| body := [SetLoading true;
                    Call (OnSnapshot (CommentsCollection postId))];
           cleanup := [Call (Unsubscribe (CommentsCollection postId))] |}
    | None => {| body := [SetComments []]; cleanup := [] |}
    end.

(** The mounted component: its state, what React remembers of the last
    run of the comments effect (the dependency values and the cleanup),
    and everything done so far. *)
Record Component := {
  state : AppState;
  comments_deps : bool * option string;
  comments_cleanup : list action;
  log : list action;
}.

(** React after a render: when a dependency of the effect changed, the
    cleanup of the previous run is called, then the effect runs again. *)
Definition commit (c : Component) : Component :=
  let deps := (isAuthReady (state c), selectedPostId (state c)) in
  if decide (deps = comments_deps c) then c
  else
    let e := commentsEffect deps.1 deps.2 in
    let acts := comments_cleanup c ++ body e in
    {| state := run acts (state c);
       comments_deps := deps;
       comments_cleanup := cleanup e;
       log := log c ++ acts |}.

(** The component after its first render: the effect has run once on the
    initial state. *)
Definition mount : Component :=
  let e := commentsEffect (isAuthReady initial) (selectedPostId initial) in
  {| state := run (body e) initial;
     comments_deps := (isAuthReady initial, selectedPostId initial);
     comments_cleanup := cleanup e;
     log := body e |}.

(** The slot of the comments listener, read off the log: [onSnapshot] on
    a comments collection fills it, the function [onSnapshot] returned
    empties it.  [Broken] records a listener added while another one was
    live, or a cancellation that met no live listener of that post. *)
Inductive Slot :=
| Idle
| Subscribed (postId : string)
| Broken.

Definition slot_step (s : Slot) (a : action) : Slot :=
  match a with
  | Call (OnSnapshot (CommentsCollection p)) =>
      match s with
      | Idle => Subscribed p
      | _ => Broken
      end
  | Call (Unsubscribe (CommentsCollection p)) =>
      match s with
      | Subscribed q => if decide (p = q) then Idle else Broken
      | _ => Broken
      end
  | _ => s
  end.

Definition slot_of (acts : list action) : Slot := foldl slot_step Idle acts.

(** ** Events reaching the mounted component *)
Inductive event :=
| AuthStateChanged (u : option User) (token_r anon_r : result)
| UserDataSnapshot (doc : option fields)
| PostsSnapshot (docs : list QueryDocumentSnapshot)
| PostsError
| CommentsSnapshot (docs : list QueryDocumentSnapshot)
| CommentsError
| ClickSignOut (out_r anon_r : result)
| Navigate (targetView : string)
| SelectPost (postId : string)
| UpdateProfile (newDisplayName : string) (r : result)
| CreatePost (title content authorId : string) (authorName : value) (r : result)
| AddComment (text authorId : string) (authorName : value) (r : result).

(** What the component does on an event.  A listener callback runs only
    while its listener is live: the user data listener while there is a
    user and auth is ready, the posts listener while auth is ready, the
    comments listener while the slot holds it. *)
Definition handle (cfg : Config) (c : Component) (ev : event) : list action :=
  let st := state c in
  match ev with
  | AuthStateChanged u token_r anon_r => authStateChanged cfg u token_r anon_r
  | UserDataSnapshot doc =>
      match user st with
      | Some u => if isAuthReady st then userDataSnapshot u doc else []
      | None => []
      end
  | PostsSnapshot docs => if isAuthReady st then postsSnapshot docs else []
  | PostsError => if isAuthReady st then postsError else []
  | CommentsSnapshot docs =>
      match slot_of (log c) with
      | Subscribed _ => commentsSnapshot docs
      | _ => []
      end
  | CommentsError =>
      match slot_of (log c) with
      | Subscribed _ => commentsError
      | _ => []
      end
  | ClickSignOut out_r anon_r => handleSignOut out_r anon_r
  | Navigate targetView => handleNavigate targetView
  | SelectPost postId => handleSelectPost postId
  | UpdateProfile n r => handleUpdateProfile st n r
  | CreatePost t b a n r => handleCreatePost t b a n r
  | AddComment t a n r => handleAddComment st t a n r
  end.

Definition step (cfg : Config) (c : Component) (ev : event) : Component :=
  let acts := handle cfg c ev in
  commit {| state := run acts (state c);
            comments_deps := comments_deps c;
            comments_cleanup := comments_cleanup c;
            log := log c ++ acts |}.

Definition steps (cfg : Config) (evs : list event) : Component :=
  foldl (step cfg) mount evs.

(** ** The session kept by the auth service *)

Inductive Session :=
| NoSession
| AnonymousSession
| CredentialSession.

(** Modelled from the spec: the auth operations of the Remote Store
    Client (section 6), which is not part of the sources.  A sign-out
    that resolves destroys the session; a sign-in that resolves
    replaces it, with an anonymous one for [signInAnonymously]; a call
    that rejects leaves the session as it was. *)
Definition auth_step (s : Session) (a : action) : Session :=
  match a with
  | Await SignOut Resolved => NoSession
  | Await SignInAnonymously Resolved => AnonymousSession
  | Await (SignInWithCustomToken _) Resolved => CredentialSession
  | _ => s
  end.

Definition session_after (acts : list action) (s : Session) : Session :=
  foldl auth_step s acts.

(** ** [String.prototype.trim]

    Strings are UTF-8.  The white space and line terminators of the
    language are, in one byte, tab, line feed, vertical tab, form feed,
    carriage return and space; in two bytes U+00A0 (C2 A0); in three
    bytes U+1680 (E1 9A 80), U+2000 to U+200A (E2 80 80 to E2 80 8A),
    U+2028 and U+2029 (E2 80 A8, E2 80 A9), U+202F (E2 80 AF), U+205F
    (E2 81 9F), U+3000 (E3 80 80) and U+FEFF (EF BB BF). *)
Definition is_white_space (c : Ascii.ascii) : bool :=
  bool_decide (Ascii.nat_of_ascii c ∈ [9; 10; 11; 12; 13; 32]%nat).

Definition is_white_space2 (c1 c2 : Ascii.ascii) : bool :=
  bool_decide ((Ascii.nat_of_ascii c1, Ascii.nat_of_ascii c2) = (194, 160)%nat).

Definition is_white_space3 (c1 c2 c3 : Ascii.ascii) : bool :=
  bool_decide
    ((Ascii.nat_of_ascii c1, Ascii.nat_of_ascii c2, Ascii.nat_of_ascii c3)
     ∈ [(225, 154, 128); (226, 128, 128); (226, 128, 129); (226, 128, 130);
        (226, 128, 131); (226, 128, 132); (226, 128, 133); (226, 128, 134);
        (226, 128, 135); (226, 128, 136); (226, 128, 137); (226, 128, 138);
        (226, 128, 168); (226, 128, 169); (226, 128, 175); (226, 129, 159);
        (227, 128, 128); (239, 187, 191)]%nat).

(** Dropping from the front of a string the characters of one, two or
    three bytes that [p1], [p2], [p3] accept, and whether the whole
    string is made of such characters. *)
Section Strip.
Variable p1 : Ascii.ascii -> bool.
Variable p2 : Ascii.ascii -> Ascii.ascii -> bool.
Variable p3 : Ascii.ascii -> Ascii.ascii -> Ascii.ascii -> bool.

Fixpoint strip (s : string) : string :=
  match s with
  | EmptyString => EmptyString
  | String c1 s1 =>
      if p1 c1 then strip s1
      else
        match s1 with
        | EmptyString => s
        | String c2 s2 =>
            if p2 c1 c2 then strip s2
            else
              match s2 with
              | EmptyString => s
              | String c3 s3 => if p3 c1 c2 c3 then strip s3 else s
              end
        end
  end.

Fixpoint all_white (s : string) : bool :=
  match s with
  | EmptyString => true
  | String c1 s1 =>
      if p1 c1 then all_white s1
      else
        match s1 with
        | EmptyString => false
        | String c2 s2 =>
            if p2 c1 c2 then all_white s2
            else
              match s2 with
              | EmptyString => false
              | String c3 s3 => if p3 c1 c2 c3 then all_white s3 else false
              end
        end
  end.
End Strip.

Definition trimStart : string -> string :=
  strip is_white_space is_white_space2 is_white_space3.

(** The same from the end of the string, on the string reversed: the
    bytes of a character come last byte first. *)
Definition trimEnd_reversed : string -> string :=
  strip is_white_space (fun c1 c2 => is_white_space2 c2 c1)
        (fun c1 c2 c3 => is_white_space3 c3 c2 c1).

Definition trim (s : string) : string :=
  String.rev (trimEnd_reversed (String.rev (trimStart s))).

(** ** The forms *)

(** [ProfileView]: the display-name editor and the post-compose form.
    [st] carries the [user] and [userData] props; [onUpdateProfile] and
    [onCreatePost] are [handleUpdateProfile] and [handleCreatePost].  A
    submit returns the new local state of the form and what [App] does. *)
Module ProfileView.
Record State := {
  displayName : string;
  postTitle : string;
  postContent : string;
}.

Definition handleProfileUpdate (st : AppState) (s : State) (r : result)
    : State * list action :=
  if truthy_str (trim (displayName s)) then
    (s, handleUpdateProfile st (displayName s) r)
  else (s, []).

Definition handlePostCreate (st : AppState) (s : State) (r : result)
    : State * list action :=
  if truthy_str (trim (postTitle s)) && truthy_str (trim (postContent s)) then
    match user st, userData st with
    | Some u, Some d =>
        ({| displayName := displayName s; postTitle := ""; postContent := "" |},
         handleCreatePost (postTitle s) (postContent s) (uid u)
                          (get d "displayName") r)
    | _, _ => (s, [])
    end
  else (s, []).
End ProfileView.

(** [PostDetailView]: the comment form; [onAddComment] is
    [handleAddComment]. *)
Module PostDetailView.
Record State := {
  commentText : string;
}.

Definition handleSubmit (st : AppState) (s : State) (r : result)
    : State * list action :=
  if truthy_str (trim (commentText s)) then
    match user st, userData st with
    | Some u, Some d =>
        ({| commentText := "" |},
         handleAddComment st (commentText s) (uid u) (get d "displayName") r)
    | _, _ => (s, [])
    end
  else (s, []).
End PostDetailView.

(** ** [renderView] *)

(** The element [renderView] returns: the component and its data props. *)
Inductive element :=
| Spinner
| AuthView
| HomeView (posts : list fields)
| PostDetailView_ (post : option fields) (comments : list fields)
    (user : option User) (userData : option fields)
| ProfileView_ (userData : option fields) (user : option User).

(** [p.id === selectedPostId] *)
Definition id_is (selected : option string) (p : fields) : bool :=
  bool_decide (get p "id" = js_string selected).

(** [posts.find(p => p.id === selectedPostId)] *)
Definition selectedPost (st : AppState) : option fields :=
  List.find (id_is (selectedPostId st)) (posts st).

(** [user && !user.isAnonymous] *)
Definition isRealUser (u : option User) : bool :=
  match u with
  | Some u => negb (isAnonymous u)
  | None => false
  end.

Definition renderView (st : AppState) : element :=
  if negb (isAuthReady st) then Spinner
  else if negb (isRealUser (user st)) then AuthView
  else if String.eqb (view st) "HOME" then HomeView (posts st)
  else if String.eqb (view st) "POST_DETAIL" then
    PostDetailView_ (selectedPost st) (comments st) (user st) (userData st)
  else if String.eqb (view st) "PROFILE" then
    ProfileView_ (userData st) (user st)
  else HomeView (posts st).

(** ** The screens of the View Controller, in the words of the spec *)

Inductive Identity :=
| Unauthenticated
| Anonymous (uid : string)
| Federated (uid : string) (displayName email : option string).

Definition identity_of (u : option User) : Identity :=
  match u with
  | None => Unauthenticated
  | Some u =>
      if isAnonymous u then Anonymous (uid u)
      else Federated (uid u) (displayName u) (email u)
  end.

Inductive Screen :=
| LoadingIndicator
| SignInPrompt
| Home
| PostDetail
| Profile.

Definition screen_of (e : element) : Screen :=
  match e with
  | Spinner => LoadingIndicator
  | AuthView => SignInPrompt
  | HomeView _ => Home
  | PostDetailView_ _ _ _ _ => PostDetail
  | ProfileView_ _ _ => Profile
  end.

(** Section 4.4 of the spec, read as a function of auth ready, identity
    and requested screen. *)
Definition view_controller (ready : bool) (i : Identity) (requested : string)
    : Screen :=
  if ready then
    match i with
    | Unauthenticated | Anonymous _ => SignInPrompt
    | Federated _ _ _ =>
        if decide (requested = "HOME"%string) then Home
        else if decide (requested = "POST_DETAIL"%string) then PostDetail
        else if decide (requested = "PROFILE"%string) then Profile
        else Home
    end
  else LoadingIndicator.

(** Snapshots delivered one after the other to a listener callback. *)
Definition deliver (callback : list QueryDocumentSnapshot -> list action)
    (snapshots : list (list QueryDocumentSnapshot)) (st : AppState) : AppState :=
  foldl (fun s docs => run (callback docs) s) st snapshots.

(** ** Sample inputs *)

Definition comment_at_100 : QueryDocumentSnapshot :=
  {| doc_id := "c1";
     doc_data := {[ "text"%string := VStr "later";
                    "createdAt"%string :=
                      VTimestamp {| seconds := 100; nanoseconds := 0 |} ]} |}.

Definition comment_at_50 : QueryDocumentSnapshot :=
  {| doc_id := "c2";
     doc_data := {[ "text"%string := VStr "sooner";
                    "createdAt"%string :=
                      VTimestamp {| seconds := 50; nanoseconds := 0 |} ]} |}.


(** The slot the comments effect asks for under given dependency
    values: a listener on the comments of the selected post once auth is
    ready, none otherwise. *)
Definition wanted_slot (ready : bool) (selected : option string) : Slot :=
  match selected with
  | Some postId => if ready && truthy_str postId then Subscribed postId else Idle
  | None => Idle
  end.

(** The cancellation a slot stands for. *)
Definition cancel_of (s : Slot) : list action :=
  match s with
  | Subscribed postId => [Call (Unsubscribe (CommentsCollection postId))]
  | _ => []
  end.

(** Actions that do not touch the comments listener. *)
Definition quiet (a : action) : Prop :=
  match a with
  | Call (OnSnapshot (CommentsCollection _))
  | Call (Unsubscribe (CommentsCollection _)) => False
  | _ => True
  end.

(** The component between two events: React's record of the effect
    agrees with the state, the slot is the one the effect asks for, the
    remembered cleanup cancels exactly the live listener, and without a
    live listener the comment list is empty. *)
Definition settled (c : Component) : Prop :=
  comments_deps c = (isAuthReady (state c), selectedPostId (state c))
  /\ slot_of (log c)
     = wanted_slot (isAuthReady (state c)) (selectedPostId (state c))
  /\ comments_cleanup c = cancel_of (slot_of (log c))
  /\ (slot_of (log c) = Idle -> comments (state c) = []).

Definition sample_config : Config :=
  {| appId := "default-app-id"; initialAuthToken := None |}.

Definition token_config : Config :=
  {| appId := "default-app-id"; initialAuthToken := Some "bootstrap-token"%string |}.

Definition alice : User :=
  {| uid := "u1";
     displayName := Some "Alice"%string;
     email := Some "a@x.com"%string;
     isAnonymous := false |}.

Definition guest : User :=
  {| uid := "g1"; displayName := None; email := None; isAnonymous := true |}.

(** Alice signs in and opens post [p1]. *)
Definition reading_p1 : list event :=
  [AuthStateChanged (Some alice) Resolved Resolved; SelectPost "p1"].

(** Alice on the Profile screen, her profile loaded. *)
Definition alice_profile : fields :=
  {[ "displayName"%string := VStr "Alice"; "email"%string := VStr "a@x.com" ]}.

Definition alice_on_profile : AppState :=
  {| user := Some alice;
     userData := Some alice_profile;
     isAuthReady := true;
     view := "PROFILE";
     selectedPostId := None;
     posts := [];
     comments := [];
     loading := false;
     error := None |}.

Definition draft_post : ProfileView.State :=
  {| ProfileView.displayName := "Alice";
     ProfileView.postTitle := "T";
     ProfileView.postContent := "C" |}.

(** Two documents written within the same second, and a document whose
    data has a field [id] of its own. *)
Definition written_early : QueryDocumentSnapshot :=
  {| doc_id := "a1";
     doc_data := {[ "createdAt"%string :=
                      VTimestamp {| seconds := 5; nanoseconds := 100000000 |} ]} |}.

Definition written_late : QueryDocumentSnapshot :=
  {| doc_id := "b2";
     doc_data := {[ "createdAt"%string :=
                      VTimestamp {| seconds := 5; nanoseconds := 900000000 |} ]} |}.

Definition with_own_id : QueryDocumentSnapshot :=
  {| doc_id := "c3";
     doc_data := {[ "id"%string := VStr "evil";
                    "createdAt"%string :=
                      VTimestamp {| seconds := 7; nanoseconds := 0 |} ]} |}.


(** ** The page around the view *)

(** The [user] prop [App] gives to [Navbar]:
    [user && !user.isAnonymous ? user : null]. *)
Definition navbar_user (st : AppState) : option User :=
  match user st with
  | Some u => if negb (isAnonymous u) then Some u else None
  | None => None
  end.

(** The component just before React commits: the handler has run. *)
Definition handled (cfg : Config) (c : Component) (ev : event) : Component :=
  {| state := run (handle cfg c ev) (state c);
     comments_deps := comments_deps c;
     comments_cleanup := comments_cleanup c;
     log := log c ++ handle cfg c ev |}.


(** Where a call may write, seen from the state the handler read: a
    document write is a merge write to the document of the current
    user; an append goes to the posts collection or to the comments of
    the selected post, with the server timestamp placeholder under
    [createdAt] and no field named [id]. *)
Definition write_in_bounds (st : AppState) (c : call) : Prop :=
  match c with
  | SetDoc ref _ merge =>
      merge = true /\ exists u, user st = Some u /\ ref = UserDoc (uid u)
  | AddDoc ref data =>
      (ref = PostsCollection
       \/ exists p, selectedPostId st = Some p /\ ref = CommentsCollection p)
      /\ data !! "createdAt"%string = Some VServerTimestamp
      /\ data !! "id"%string = None
  | _ => True
  end.

(** A comment whose server timestamp is still pending: the snapshot
    gives [null] for it. *)
Definition pending_comment : QueryDocumentSnapshot :=
  {| doc_id := "c3";
     doc_data := {[ "text"%string := VStr "just sent";
                    "createdAt"%string := VNull ]} |}.

(** Two posts as a snapshot delivers them. *)
Definition first_post : QueryDocumentSnapshot :=
  {| doc_id := "p1";
     doc_data := {[ "title"%string := VStr "Hello";
                    "content"%string := VStr "First words";
                    "authorId"%string := VStr "u1";
                    "authorName"%string := VStr "Alice";
                    "createdAt"%string :=
                      VTimestamp {| seconds := 10; nanoseconds := 0 |} ]} |}.

Definition second_post : QueryDocumentSnapshot :=
  {| doc_id := "p2";
     doc_data := {[ "title"%string := VStr "Again";
                    "content"%string := VStr "More words";
                    "authorId"%string := VStr "u1";
                    "authorName"%string := VStr "Alice";
                    "createdAt"%string :=
                      VTimestamp {| seconds := 20; nanoseconds := 0 |} ]} |}.

(** A post form whose title is spaces only. *)
Definition blank_title_draft : ProfileView.State :=
  {| ProfileView.displayName := "Alice";
     ProfileView.postTitle := "   ";
     ProfileView.postContent := "C" |}.

(** The object [handleCreatePost] hands to [addDoc], and the one
    [handleAddComment] does. *)
Definition post_to_add (title content authorId : string) (authorName : value)
    : fields :=
  {[ "title"%string := VStr title;
     "content"%string := VStr content;
     "authorId"%string := VStr authorId;
     "authorName"%string := authorName;
     "createdAt"%string := VServerTimestamp ]}.

Definition comment_to_add (text authorId : string) (authorName : value)
    : fields :=
  {[ "text"%string := VStr text;
     "authorId"%string := VStr authorId;
     "authorName"%string := authorName;
     "createdAt"%string := VServerTimestamp ]}.

(** Modelled from the spec: the document the store holds for an appended
    object (section 3, [createdAt]: server-assigned timestamp or
    pending).  The placeholder under [createdAt] is read back as [null]
    while the write is pending and as the server's timestamp
    afterwards; the other fields are the ones written. *)
Definition stored (docId : string) (data : fields) (createdAt : option Timestamp)
    : QueryDocumentSnapshot :=
  {| doc_id := docId;
     doc_data := <[ "createdAt"%string :=
                      match createdAt with
                      | Some t => VTimestamp t
                      | None => VNull
                      end ]> data |}.

Definition padded_draft : ProfileView.State :=
  {| ProfileView.displayName := "Alice";
     ProfileView.postTitle := " T ";
     ProfileView.postContent := "C" |}.

(** ** Sign-in with the provider *)

(** How the popup settles: with the user of the provider, or with an
    error. *)
Inductive popup_result :=
| PopupResolved (u : User)
| PopupRejected (message : string).

(** What [handleSignIn] does: the popup, or an action of the kinds
    above. *)
Inductive sign_in_action :=
| SignInWithPopup (r : popup_result)
| Then (a : action).

Definition handleSignIn (popup_r : popup_result) (write_r : result)
    : list sign_in_action :=
  [Then (SetLoading true); Then (SetError None); SignInWithPopup popup_r]
  ++ match popup_r with
     | PopupResolved u =>
         map Then
           (try_await
              (SetDoc (UserDoc (uid u))
                      {[ "displayName"%string := js_string (displayName u);
                         "email"%string := js_string (email u) ]} true)
              write_r
              []
              (fun message => [ConsoleError "Sign-in error: ";
                               SetError (Some message)]))
     | PopupRejected message =>
         [Then (ConsoleError "Sign-in error: ");
          Then (SetError (Some message))]
     end
  ++ [Then (SetLoading false)].

Definition actions_of (l : list sign_in_action) : list action :=
  omap (fun x => match x with
                 | Then a => Some a
                 | SignInWithPopup _ => None
                 end) l.

(** ** The three listener effects together *)

#[global] Instance User_eq_dec : EqDecision User.
Proof. solve_decision. Defined.

(** The user data effect, [useEffect(..., [user, isAuthReady])]. *)
Definition userDataEffect (u : option User) (ready : bool) : Effect :=
  match u with
  | Some u' =>
      if ready then
        {| body := [Call (OnSnapshot (UserDoc (uid u')))];
           cleanup := [Call (Unsubscribe (UserDoc (uid u')))] |}
      else {| body := []; cleanup := [] |}
  | None =>
      if ready then {| body := [SetUserData None]; cleanup := [] |}
      else {| body := []; cleanup := [] |}
  end.

(** The posts effect, [useEffect(..., [isAuthReady])]. *)
Definition postsEffect (ready : bool) : Effect :=
  if negb ready then {| body := []; cleanup := [] |}
  else
    {| body := [SetLoading true; Call (OnSnapshot PostsCollection)];
       cleanup := [Call (Unsubscribe PostsCollection)] |}.

(** The mounted component with React's record of all three effects.
    [core] holds the state, the record of the comments effect and the
    log; the user object is a dependency compared by identity, here by
    its fields. *)
Record Mounted := {
  core : Component;
  user_deps : option User * bool;
  user_cleanup : list action;
  posts_deps : bool;
  posts_cleanup : list action;
}.

(** React after a render: of the effects with a changed dependency,
    first all the cleanups of their previous runs, in the order of the
    hooks, then all the effects, in the same order. *)
Definition commit_all (m : Mounted) : Mounted :=
  let st := state (core m) in
  let ud := (user st, isAuthReady st) in
  let pd := isAuthReady st in
  let cd := (isAuthReady st, selectedPostId st) in
  let eu := userDataEffect (user st) (isAuthReady st) in
  let ep := postsEffect (isAuthReady st) in
  let ec := commentsEffect (isAuthReady st) (selectedPostId st) in
  let u_same := bool_decide (ud = user_deps m) in
  let p_same := bool_decide (pd = posts_deps m) in
  let c_same := bool_decide (cd = comments_deps (core m)) in
  let acts :=
    (if u_same then [] else user_cleanup m)
    ++ (if p_same then [] else posts_cleanup m)
    ++ (if c_same then [] else comments_cleanup (core m))
    ++ (if u_same then [] else body eu)
    ++ (if p_same then [] else body ep)
    ++ (if c_same then [] else body ec) in
  {| core :=
       {| state := run acts st;
          comments_deps := cd;
          comments_cleanup :=
            if c_same then comments_cleanup (core m) else cleanup ec;
          log := log (core m) ++ acts |};
     user_deps := ud;
     user_cleanup := if u_same then user_cleanup m else cleanup eu;
     posts_deps := pd;
     posts_cleanup := if p_same then posts_cleanup m else cleanup ep |}.

(** The first render: the three effects run in the order of the hooks. *)
Definition mount_all : Mounted :=
  let eu := userDataEffect (user initial) (isAuthReady initial) in
  let ep := postsEffect (isAuthReady initial) in
  let ec := commentsEffect (isAuthReady initial) (selectedPostId initial) in
  let acts := body eu ++ body ep ++ body ec in
  {| core :=
       {| state := run acts initial;
          comments_deps := (isAuthReady initial, selectedPostId initial);
          comments_cleanup := cleanup ec;
          log := acts |};
     user_deps := (user initial, isAuthReady initial);
     user_cleanup := cleanup eu;
     posts_deps := isAuthReady initial;
     posts_cleanup := cleanup ep |}.

Definition step_all (cfg : Config) (m : Mounted) (ev : event) : Mounted :=
  let acts := handle cfg (core m) ev in
  commit_all
    {| core := {| state := run acts (state (core m));
                  comments_deps := comments_deps (core m);
                  comments_cleanup := comments_cleanup (core m);
                  log := log (core m) ++ acts |};
       user_deps := user_deps m;
       user_cleanup := user_cleanup m;
       posts_deps := posts_deps m;
       posts_cleanup := posts_cleanup m |}.

Definition steps_all (cfg : Config) (evs : list event) : Mounted :=
  foldl (step_all cfg) mount_all evs.

(** Unmounting: the cleanups of the three effects, in the order of the
    hooks. *)
Definition unmount (m : Mounted) : list action :=
  user_cleanup m ++ posts_cleanup m ++ comments_cleanup (core m).

(** One listener, read off a log.  [mine] picks the references the
    listener is about; [Misused] records a listener added over a live
    one, or a cancellation of one that is not live. *)
Inductive Listener :=
| Off
| On (r : Ref)
| Misused.

Definition listener_step (mine : Ref -> bool) (s : Listener) (a : action)
    : Listener :=
  match a with
  | Call (OnSnapshot r) =>
      if mine r then
        match s with
        | Off => On r
        | _ => Misused
        end
      else s
  | Call (Unsubscribe r) =>
      if mine r then
        match s with
        | On r' => if decide (r = r') then Off else Misused
        | _ => Misused
        end
      else s
  | _ => s
  end.

Definition listener_of (mine : Ref -> bool) (acts : list action) : Listener :=
  foldl (listener_step mine) Off acts.

Definition is_user_doc (r : Ref) : bool :=
  match r with UserDoc _ => true | _ => false end.
Definition is_posts (r : Ref) : bool :=
  match r with PostsCollection => true | _ => false end.
Definition is_comments (r : Ref) : bool :=
  match r with CommentsCollection _ => true | _ => false end.

(** The listeners the state calls for. *)
Definition wanted_user (st : AppState) : Listener :=
  match user st with
  | Some u => if isAuthReady st then On (UserDoc (uid u)) else Off
  | None => Off
  end.

Definition wanted_posts (st : AppState) : Listener :=
  if isAuthReady st then On PostsCollection else Off.

Definition wanted_comments (st : AppState) : Listener :=
  match selectedPostId st with
  | Some p =>
      if isAuthReady st && truthy_str p then On (CommentsCollection p) else Off
  | None => Off
  end.

(** The cancellation of a live listener. *)
Definition cancel (s : Listener) : list action :=
  match s with
  | On r => [Call (Unsubscribe r)]
  | _ => []
  end.

(** Actions that add or cancel no listener picked by [mine]. *)
Definition quiet_for (mine : Ref -> bool) (a : action) : Prop :=
  match a with
  | Call (OnSnapshot r) | Call (Unsubscribe r) => mine r = false
  | _ => True
  end.

(** Actions that leave the dependencies of the effects alone. *)
Definition keeps_deps (a : action) : Prop :=
  match a with
  | SetUser _ | SetIsAuthReady _ | SetSelectedPostId _ => False
  | _ => True
  end.

(** The mounted component between two events: React's records agree
    with the state, each of the three listeners is the one the state
    calls for, and each remembered cleanup cancels exactly that one. *)
Definition settled_all (m : Mounted) : Prop :=
  let st := state (core m) in
  user_deps m = (user st, isAuthReady st)
  /\ posts_deps m = isAuthReady st
  /\ comments_deps (core m) = (isAuthReady st, selectedPostId st)
  /\ listener_of is_user_doc (log (core m)) = wanted_user st
  /\ listener_of is_posts (log (core m)) = wanted_posts st
  /\ listener_of is_comments (log (core m)) = wanted_comments st
  /\ user_cleanup m = cancel (wanted_user st)
  /\ posts_cleanup m = cancel (wanted_posts st)
  /\ comments_cleanup (core m) = cancel (wanted_comments st).

(** The component just before React commits all effects: the handler
    has run. *)
Definition handled_all (cfg : Config) (m : Mounted) (ev : event) : Mounted :=
  {| core := handled cfg (core m) ev;
     user_deps := user_deps m;
     user_cleanup := user_cleanup m;
     posts_deps := posts_deps m;
     posts_cleanup := posts_cleanup m |}.

Definition adds_posts_listener (a : action) : bool :=
  match a with
  | Call (OnSnapshot PostsCollection) => true
  | _ => false
  end.

Definition cancels_posts_listener (a : action) : bool :=
  match a with
  | Call (Unsubscribe PostsCollection) => true
  | _ => false
  end.

(** Actions an effect may do: switch loading, set the comment list,
    clear the profile, call the store. *)
Definition effect_like (a : action) : Prop :=
  match a with
  | SetLoading _ | SetComments _ | SetUserData None | Call _ => True
  | _ => False
  end.

(** The same without the clearing of the profile. *)
Definition keeps_profile (a : action) : Prop :=
  match a with
  | SetLoading _ | SetComments _ | Call _ => True
  | _ => False
  end.

(** The actions React runs when it commits [m]. *)
Definition committed (m : Mounted) : list action :=
  let st := state (core m) in
  let u_same := bool_decide ((user st, isAuthReady st) = user_deps m) in
  let p_same := bool_decide (isAuthReady st = posts_deps m) in
  let c_same :=
    bool_decide ((isAuthReady st, selectedPostId st) = comments_deps (core m)) in
  (if u_same then [] else user_cleanup m)
  ++ (if p_same then [] else posts_cleanup m)
  ++ (if c_same then [] else comments_cleanup (core m))
  ++ (if u_same then [] else body (userDataEffect (user st) (isAuthReady st)))
  ++ (if p_same then [] else body (postsEffect (isAuthReady st)))
  ++ (if c_same then []
      else body (commentsEffect (isAuthReady st) (selectedPostId st))).

(** The events that write to the store, and how their write settles. *)
Definition write_result (ev : event) : option result :=
  match ev with
  | UpdateProfile _ r | CreatePost _ _ _ _ r | AddComment _ _ _ r => Some r
  | _ => None
  end.

(** A string made of white space only (the empty one included). *)
Definition blank : string -> bool :=
  all_white is_white_space is_white_space2 is_white_space3.

(** The strings made of characters that [p1], [p2], [p3] accept. *)
Inductive WhiteSpaces (p1 : Ascii.ascii -> bool)
    (p2 : Ascii.ascii -> Ascii.ascii -> bool)
    (p3 : Ascii.ascii -> Ascii.ascii -> Ascii.ascii -> bool) : string -> Prop :=
| WhiteSpaces_nil : WhiteSpaces p1 p2 p3 EmptyString
| WhiteSpaces_1 c s :
    p1 c = true -> WhiteSpaces p1 p2 p3 s -> WhiteSpaces p1 p2 p3 (String c s)
| WhiteSpaces_2 c1 c2 s :
    p2 c1 c2 = true -> WhiteSpaces p1 p2 p3 s ->
    WhiteSpaces p1 p2 p3 (String c1 (String c2 s))
| WhiteSpaces_3 c1 c2 c3 s :
    p3 c1 c2 c3 = true -> WhiteSpaces p1 p2 p3 s ->
    WhiteSpaces p1 p2 p3 (String c1 (String c2 (String c3 s))).

(** An em space, U+2003, and a title made of it. *)
Definition em_space : string :=
  String (Ascii.ascii_of_nat 226)
    (String (Ascii.ascii_of_nat 128)
       (String (Ascii.ascii_of_nat 131) EmptyString)).

(** Where [handleSignIn] may write: a merge write to the document of
    the user the popup returned, and no append. *)
Definition sign_in_write_in_bounds (popup_r : popup_result) (c : call) : Prop :=
  match c with
  | SetDoc ref _ merge =>
      merge = true /\ exists u, popup_r = PopupResolved u /\ ref = UserDoc (uid u)
  | AddDoc _ _ => False
  | _ => True
  end.

(** A post form whose title is an em space. *)
Definition em_space_title_draft : ProfileView.State :=
  {| ProfileView.displayName := "Alice";
     ProfileView.postTitle := em_space;
     ProfileView.postContent := "C" |}.
(** * Properties *)

(** ** The sort *)

Lemma Sorted_weaken {A} (R R' : A -> A -> Prop) l :
  (forall a b, R a b -> R' a b) -> Sorted R l -> Sorted R' l.
Proof.
  intros HR. induction 1 as [|x l Hs IH Hhd]; constructor; [done|].
  destruct Hhd; constructor. by apply HR.
Qed.

Section JsSortFacts.
Context {A : Type} (cmp : A -> A -> Z) (key : A -> Z).
Hypothesis cmp_key : forall a b, cmp a b = key a - key b.

Lemma js_insert_perm x l : js_insert cmp x l ≡ₚ x :: l.
Proof.
  induction l as [|y l IH]; simpl; [done|].
  destruct (cmp x y <=? 0); [done|].
  rewrite IH. apply Permutation_swap.
Qed.

Lemma js_sort_perm l : js_sort cmp l ≡ₚ l.
Proof.
  induction l as [|x l IH]; simpl; [done|].
  rewrite js_insert_perm. by rewrite IH.
Qed.

Lemma js_insert_hd y x l :
  key y <= key x ->
  HdRel (fun a b => key a <= key b) y l ->
  HdRel (fun a b => key a <= key b) y (js_insert cmp x l).
Proof.
  intros Hyx Hl. destruct l as [|z l]; simpl.
  - by constructor.
  - destruct (cmp x z <=? 0); constructor; [done|].
    by inversion Hl.
Qed.

Lemma js_insert_sorted x l :
  Sorted (fun a b => key a <= key b) l ->
  Sorted (fun a b => key a <= key b) (js_insert cmp x l).
Proof.
  induction 1 as [|y l Hs IH Hhd]; simpl.
  - repeat constructor.
  - destruct (Z.leb_spec (cmp x y) 0) as [Hle|Hgt].
    + constructor; [by constructor|].
      constructor. rewrite cmp_key in Hle. lia.
    + constructor; [done|].
      apply js_insert_hd; [|done]. rewrite cmp_key in Hgt. lia.
Qed.

Lemma js_sort_sorted l : Sorted (fun a b => key a <= key b) (js_sort cmp l).
Proof.
  induction l as [|x l IH]; simpl; [constructor|].
  by apply js_insert_sorted.
Qed.

(** Stability: the elements of one key keep the order they had. *)
Lemma js_insert_filter k x l :
  filter (fun a => key a = k) (js_insert cmp x l)
  = filter (fun a => key a = k) (x :: l).
Proof.
  induction l as [|y l IH]; simpl; [done|].
  destruct (Z.leb_spec (cmp x y) 0) as [Hle|Hgt]; [done|].
  rewrite cmp_key in Hgt.
  rewrite filter_cons, IH, !filter_cons.
  repeat case_decide; try done; lia.
Qed.

Lemma js_sort_stable k l :
  filter (fun a => key a = k) (js_sort cmp l) = filter (fun a => key a = k) l.
Proof.
  induction l as [|x l IH]; simpl; [done|].
  rewrite js_insert_filter, !filter_cons, IH. done.
Qed.

Lemma sorted_head_least x l y :
  Sorted (fun a b => key a <= key b) (x :: l) -> y ∈ x :: l -> key x <= key y.
Proof.
  intros Hs Hy.
  apply Sorted_StronglySorted in Hs; [|intros a b c; lia].
  apply StronglySorted_inv in Hs as [_ Hall].
  apply elem_of_cons in Hy as [->|Hy]; [lia|].
  rewrite Forall_forall in Hall. by apply Hall.
Qed.

Lemma in_by_filter (l1 l2 : list A) y :
  (forall k, filter (fun a => key a = k) l1 = filter (fun a => key a = k) l2) ->
  y ∈ l2 -> y ∈ l1.
Proof.
  intros Hf Hy.
  assert (y ∈ filter (fun a => key a = key y) l1) as Hin.
  { rewrite Hf. by apply list_elem_of_filter. }
  by apply list_elem_of_filter in Hin as [_ ?].
Qed.

(** A sorted array is determined by the order inside each key: every
    stable sort gives the array [js_sort] gives. *)
Lemma sorted_stable_unique l1 l2 :
  Sorted (fun a b => key a <= key b) l1 ->
  Sorted (fun a b => key a <= key b) l2 ->
  (forall k, filter (fun a => key a = k) l1 = filter (fun a => key a = k) l2) ->
  l1 = l2.
Proof.
  revert l2. induction l1 as [|x l1 IH]; intros l2 Hs1 Hs2 Hf.
  - destruct l2 as [|y l2]; [done|].
    specialize (Hf (key y)). rewrite filter_cons in Hf.
    by case_decide.
  - destruct l2 as [|y l2].
    { specialize (Hf (key x)). rewrite filter_cons in Hf. by case_decide. }
    assert (key x = key y) as Hk.
    { apply Z.le_antisymm.
      - apply (sorted_head_least x l1 y); [done|].
        apply (in_by_filter _ (y :: l2)); [done|]. by left.
      - apply (sorted_head_least y l2 x); [done|].
        apply (in_by_filter _ (x :: l1)); [done|]. by left. }
    assert (x = y) as ->.
    { specialize (Hf (key x)). rewrite !filter_cons in Hf.
      repeat case_decide; try done. by inversion Hf. }
    f_equal. apply IH.
    + by inversion Hs1.
    + by inversion Hs2.
    + intros k. specialize (Hf k). rewrite !filter_cons in Hf.
      case_decide; [by inversion Hf|done].
Qed.

Lemma js_sort_unique l l' :
  Sorted (fun a b => key a <= key b) l' ->
  (forall k, filter (fun a => key a = k) l' = filter (fun a => key a = k) l) ->
  l' = js_sort cmp l.
Proof.
  intros Hs Hf. apply sorted_stable_unique; [done|apply js_sort_sorted|].
  intros k. by rewrite js_sort_stable.
Qed.
End JsSortFacts.

(** ** Materialised documents and their sort key *)

Lemma with_id_lookup d k :
  with_id d !! k
  = match doc_data d !! k with
    | Some v => Some v
    | None => if decide (k = "id"%string) then Some (VStr (doc_id d)) else None
    end.
Proof.
  unfold with_id. rewrite lookup_union.
  destruct (doc_data d !! k) as [v|] eqn:Hk.
  - by destruct ({[ "id"%string := VStr (doc_id d) ]} !! k : option value).
  - rewrite left_id by apply _. case_decide as Hid.
    + subst k. by rewrite lookup_singleton_eq.
    + by rewrite lookup_singleton_ne.
Qed.

Lemma sort_key_createdAt (x : fields) :
  sort_key x
  = match x !! "createdAt"%string with
    | Some (VTimestamp t) => seconds t
    | _ => 0
    end.
Proof.
  unfold sort_key, createdAt_seconds.
  destruct (x !! "createdAt"%string) as [[]|]; simpl; try done.
  destruct (Z.eqb_spec (seconds t) 0) as [->|]; done.
Qed.

Lemma sort_key_with_id d :
  sort_key (with_id d)
  = match doc_data d !! "createdAt"%string with
    | Some (VTimestamp t) => seconds t
    | _ => 0
    end.
Proof.
  rewrite sort_key_createdAt, with_id_lookup.
  by destruct (doc_data d !! "createdAt"%string).
Qed.

Lemma deliver_snoc callback snapshots docs st :
  deliver callback (snapshots ++ [docs]) st
  = run (callback docs) (deliver callback snapshots st).
Proof. unfold deliver. by rewrite foldl_app. Qed.

(** Two posts written within one second and delivered older first are
    listed older first: the comparator reads the seconds of [createdAt]
    only, so the list is not in descending order of [createdAt].  And a
    document whose data has a field [id] of its own is listed under that
    field, not under its [doc.id]. *)
Lemma same_second_posts_keep_snapshot_order :
  let st' := deliver postsSnapshot [[written_early; written_late]] initial in
  posts st' = [with_id written_early; with_id written_late]
  /\ createdAt_instant (with_id written_early)
     < createdAt_instant (with_id written_late)
  /\ ~ Sorted (fun a b => createdAt_instant b <= createdAt_instant a) (posts st')
  /\ (exists x, posts (deliver postsSnapshot [[with_own_id]] initial) = [x]
                /\ x !! "id"%string = Some (VStr "evil")
                /\ x !! "id"%string <> Some (VStr (doc_id with_own_id))).
Proof.
  split; [by vm_compute|].
  split; [by vm_compute|].
  split.
  - intros Hs. apply Sorted_inv in Hs as [_ Hhd].
    apply HdRel_inv in Hhd. vm_compute in Hhd. by apply Hhd.
  - exists (with_id with_own_id).
    split; [by vm_compute|]. split; by vm_compute.
Qed.

(** C1 (amended): after any sequence of snapshots delivered to the posts
    listener, the posts list is made of exactly the documents of the last
    snapshot, each being its fields with [doc.id] under [id] unless the
    fields have an [id] of their own, in descending order of the seconds
    of [createdAt] (0 for a document without one), documents of equal
    seconds in snapshot order; nothing of an earlier snapshot or of the
    earlier list takes part. *)
Theorem posts_follow_latest_snapshot :
  forall (st : AppState) (earlier : list (list QueryDocumentSnapshot))
         (docs : list QueryDocumentSnapshot),
    let st' := deliver postsSnapshot (earlier ++ [docs]) st in
    posts st' = js_sort posts_cmp (map with_id docs)
    /\ posts st' ≡ₚ map with_id docs
    /\ Sorted (fun a b => sort_key b <= sort_key a) (posts st')
    /\ (forall k, filter (fun a => sort_key a = k) (posts st')
                  = filter (fun a => sort_key a = k) (map with_id docs))
    /\ (forall d k, with_id d !! k
                    = match doc_data d !! k with
                      | Some v => Some v
                      | None => if decide (k = "id"%string)
                                then Some (VStr (doc_id d)) else None
                      end)
    /\ (forall d, sort_key (with_id d)
                  = match doc_data d !! "createdAt"%string with
                    | Some (VTimestamp t) => seconds t
                    | _ => 0
                    end).
Proof.
  intros st earlier docs st'.
  assert (posts st' = js_sort posts_cmp (map with_id docs)) as Heq.
  { unfold st'. by rewrite deliver_snoc. }
  split; [done|]. rewrite Heq.
  split; [apply (js_sort_perm posts_cmp)|].
  split.
  { pose proof (js_sort_sorted posts_cmp (fun a => - sort_key a)) as Hs.
    eapply Sorted_weaken; [|apply Hs].
    - intros a b. simpl. lia.
    - intros a b. unfold posts_cmp. lia. }
  split.
  { intros k.
    pose proof (js_sort_stable posts_cmp (fun a => - sort_key a)) as Hs.
    specialize (Hs ltac:(intros a b; unfold posts_cmp; lia) (- k)
                   (map with_id docs)).
    erewrite (list_filter_iff _ (fun a => - sort_key a = - k)) by (intros a; lia).
    rewrite Hs. apply list_filter_iff. intros a; lia. }
  split; [apply with_id_lookup|apply sort_key_with_id].
Qed.

(** Whatever algorithm the engine sorts with, as long as it is stable
    and leaves the array in the order of the comparator, the posts list
    is the one of the model. *)
Lemma posts_order_unique (docs : list QueryDocumentSnapshot) (l : list fields) :
  Sorted (fun a b => sort_key b <= sort_key a) l ->
  (forall k, filter (fun a => sort_key a = k) l
             = filter (fun a => sort_key a = k) (map with_id docs)) ->
  l = js_sort posts_cmp (map with_id docs).
Proof.
  intros Hs Hf.
  apply (js_sort_unique posts_cmp (fun a => - sort_key a)).
  - intros a b. unfold posts_cmp. lia.
  - eapply Sorted_weaken; [|exact Hs]. intros a b. simpl. lia.
  - intros k.
    rewrite (list_filter_iff (fun a => - sort_key a = k)
                             (fun a => sort_key a = - k)) by (intros a; lia).
    rewrite Hf. apply list_filter_iff. intros a; lia.
Qed.

Lemma comments_order_unique (docs : list QueryDocumentSnapshot) (l : list fields) :
  Sorted (fun a b => sort_key a <= sort_key b) l ->
  (forall k, filter (fun a => sort_key a = k) l
             = filter (fun a => sort_key a = k) (map with_id docs)) ->
  l = js_sort comments_cmp (map with_id docs).
Proof. intros Hs Hf. by apply (js_sort_unique comments_cmp sort_key). Qed.

(** Two comments written within one second and delivered newer first
    are listed newer first, since the comparator reads the seconds of
    [createdAt] only; the list is not in ascending order of
    [createdAt]. *)
Lemma same_second_comments_keep_snapshot_order :
  let st' := deliver commentsSnapshot [[written_late; written_early]] initial in
  comments st' = [with_id written_late; with_id written_early]
  /\ createdAt_instant (with_id written_early)
     < createdAt_instant (with_id written_late)
  /\ ~ Sorted (fun a b => createdAt_instant a <= createdAt_instant b)
             (comments st').
Proof.
  split; [by vm_compute|].
  split; [by vm_compute|].
  intros Hs. apply Sorted_inv in Hs as [_ Hhd].
  apply HdRel_inv in Hhd. vm_compute in Hhd. by apply Hhd.
Qed.

(** C2 (amended): after any sequence of snapshots delivered to the
    comments listener, the comment list is made of exactly the documents
    of the last snapshot in ascending order of the seconds of
    [createdAt] (0 for a document without one), documents of equal
    seconds in snapshot order; two comments arriving with seconds 100
    and 50, whatever their nanoseconds, are listed as the one of 50,
    then the one of 100. *)
Theorem comments_follow_latest_snapshot :
  forall (st : AppState) (earlier : list (list QueryDocumentSnapshot))
         (docs : list QueryDocumentSnapshot),
    let st' := deliver commentsSnapshot (earlier ++ [docs]) st in
    comments st' = js_sort comments_cmp (map with_id docs)
    /\ comments st' ≡ₚ map with_id docs
    /\ Sorted (fun a b => sort_key a <= sort_key b) (comments st')
    /\ (forall k, filter (fun a => sort_key a = k) (comments st')
                  = filter (fun a => sort_key a = k) (map with_id docs))
    /\ (forall d, sort_key (with_id d)
                  = match doc_data d !! "createdAt"%string with
                    | Some (VTimestamp t) => seconds t
                    | _ => 0
                    end)
    /\ (forall c100 c50 t100 t50,
          doc_data c100 !! "createdAt"%string = Some (VTimestamp t100) ->
          seconds t100 = 100 ->
          doc_data c50 !! "createdAt"%string = Some (VTimestamp t50) ->
          seconds t50 = 50 ->
          comments (deliver commentsSnapshot (earlier ++ [[c100; c50]]) st)
          = [with_id c50; with_id c100]).
Proof.
  intros st earlier docs st'.
  assert (comments st' = js_sort comments_cmp (map with_id docs)) as Heq.
  { unfold st'. by rewrite deliver_snoc. }
  split; [done|]. rewrite Heq.
  split; [apply (js_sort_perm comments_cmp)|].
  split; [by apply (js_sort_sorted comments_cmp sort_key)|].
  split; [intros k; by apply (js_sort_stable comments_cmp sort_key)|].
  split; [apply sort_key_with_id|].
  intros c100 c50 t100 t50 H100 Hs100 H50 Hs50. rewrite deliver_snoc. simpl.
  unfold comments_cmp. rewrite !sort_key_with_id, H100, H50, Hs100, Hs50. done.
Qed.

Lemma comments_follow_latest_snapshot_witness :
  comments (deliver commentsSnapshot ([] ++ [[comment_at_100; comment_at_50]])
                    initial)
  = [with_id comment_at_50; with_id comment_at_100].
Proof.
  apply (proj2 (proj2 (proj2 (proj2 (proj2
           (comments_follow_latest_snapshot initial [] [])))))
           comment_at_100 comment_at_50
           {| seconds := 100; nanoseconds := 0 |}
           {| seconds := 50; nanoseconds := 0 |});
    reflexivity.
Defined.

(** ** The comments listener over the life of the component *)

Lemma run_app a b st : run (a ++ b) st = run b (run a st).
Proof. unfold run. by rewrite foldl_app. Qed.

Lemma slot_of_app a b : slot_of (a ++ b) = foldl slot_step (slot_of a) b.
Proof. unfold slot_of. by rewrite foldl_app. Qed.

Lemma quiet_slot acts s : Forall quiet acts -> foldl slot_step s acts = s.
Proof.
  induction 1 as [|a acts Ha _ IH]; simpl; [done|].
  rewrite <- IH at 2. f_equal.
  destruct a as [| | | | | | | | | |[]|]; try done; by destruct ref.
Qed.

Ltac handler_cases :=
  repeat match goal with
         | |- context [match ?x with _ => _ end] => destruct x eqn:?; simpl
         end.

Lemma handle_quiet cfg c ev : Forall quiet (handle cfg c ev).
Proof.
  destruct ev; simpl;
    unfold authStateChanged, signInAnonymously_then_ready, userDataSnapshot,
      postsSnapshot, postsError, commentsSnapshot, commentsError,
      handleSignOut, handleNavigate, handleSelectPost, handleUpdateProfile,
      handleCreatePost, handleAddComment, try_await, await;
    handler_cases; repeat constructor.
Qed.

Lemma handle_keeps_comments cfg c ev :
  slot_of (log c) = Idle ->
  comments (run (handle cfg c ev) (state c)) = comments (state c).
Proof.
  intros Hidle. destruct ev; simpl; try rewrite Hidle;
    unfold authStateChanged, signInAnonymously_then_ready, userDataSnapshot,
      postsSnapshot, postsError, commentsSnapshot, commentsError,
      handleSignOut, handleNavigate, handleSelectPost, handleUpdateProfile,
      handleCreatePost, handleAddComment, try_await, await;
    handler_cases; done.
Qed.

Lemma commentsEffect_cleanup ready selected :
  cleanup (commentsEffect ready selected)
  = cancel_of (wanted_slot ready selected).
Proof. by destruct ready, selected as [[|]|]. Qed.

Lemma commentsEffect_slot ready selected :
  foldl slot_step Idle (body (commentsEffect ready selected))
  = wanted_slot ready selected.
Proof. by destruct ready, selected as [[|]|]. Qed.

Lemma commentsEffect_deps ready selected st :
  isAuthReady (run (body (commentsEffect ready selected)) st) = isAuthReady st
  /\ selectedPostId (run (body (commentsEffect ready selected)) st)
     = selectedPostId st.
Proof. by destruct ready, selected as [[|]|]. Qed.

Lemma commentsEffect_clears ready selected st :
  wanted_slot ready selected = Idle ->
  comments (run (body (commentsEffect ready selected)) st) = [].
Proof. by destruct ready, selected as [[|]|]. Qed.

Lemma cancel_of_slot s : s <> Broken -> foldl slot_step s (cancel_of s) = Idle.
Proof. destruct s; simpl; [done| |done]. by rewrite decide_True. Qed.

Lemma cancel_of_run s st : run (cancel_of s) st = st.
Proof. by destruct s. Qed.

Lemma wanted_slot_not_broken ready selected : wanted_slot ready selected <> Broken.
Proof. by destruct ready, selected as [[|]|]. Qed.

(** One commit, from a component whose bookkeeping is that of the
    previous run of the effect. *)
Lemma commit_settled c :
  slot_of (log c) = wanted_slot (comments_deps c).1 (comments_deps c).2 ->
  comments_cleanup c = cancel_of (slot_of (log c)) ->
  (slot_of (log c) = Idle -> comments (state c) = []) ->
  settled (commit c).
Proof.
  intros Hslot Hclean Hcomments. unfold commit.
  case_decide as Hdeps.
  - repeat split; try done. by rewrite Hslot, <- Hdeps.
  - set (ready := isAuthReady (state c)) in *.
    set (selected := selectedPostId (state c)) in *.
    cbn [fst snd].
    assert (slot_of (log c ++ comments_cleanup c
                     ++ body (commentsEffect ready selected))
            = wanted_slot ready selected) as Hnew.
    { rewrite slot_of_app, foldl_app, Hclean, cancel_of_slot.
      - apply commentsEffect_slot.
      - rewrite Hslot. apply wanted_slot_not_broken. }
    destruct (commentsEffect_deps ready selected (state c)) as [Hr Hs].
    unfold settled; cbn [state comments_deps comments_cleanup log].
    rewrite Hnew, run_app, Hclean, cancel_of_run, Hr, Hs.
    repeat split; try done.
    + apply commentsEffect_cleanup.
    + apply commentsEffect_clears.
Qed.

Lemma step_settled cfg c ev : settled c -> settled (step cfg c ev).
Proof.
  intros (Hdeps & Hslot & Hclean & Hcomments). unfold step.
  apply commit_settled; simpl.
  - rewrite slot_of_app, quiet_slot by apply handle_quiet.
    by rewrite Hdeps.
  - rewrite slot_of_app, quiet_slot by apply handle_quiet. done.
  - rewrite slot_of_app, quiet_slot by apply handle_quiet.
    intros Hidle. rewrite handle_keeps_comments by done. by apply Hcomments.
Qed.

Lemma mount_settled : settled mount.
Proof. by repeat split. Qed.

Lemma steps_snoc cfg evs ev :
  steps cfg (evs ++ [ev]) = step cfg (steps cfg evs) ev.
Proof. unfold steps. by rewrite foldl_app. Qed.

Lemma steps_settled cfg evs : settled (steps cfg evs).
Proof.
  induction evs as [|ev evs IH] using rev_ind.
  - apply mount_settled.
  - rewrite steps_snoc. by apply step_settled.
Qed.

Lemma commit_keeps_deps c :
  comments_cleanup c = cancel_of (slot_of (log c)) ->
  isAuthReady (state (commit c)) = isAuthReady (state c)
  /\ selectedPostId (state (commit c)) = selectedPostId (state c).
Proof.
  intros Hclean. unfold commit. case_decide; [done|].
  cbn [state fst snd]. rewrite run_app, Hclean, cancel_of_run.
  apply commentsEffect_deps.
Qed.

Lemma step_log_on_change cfg c ev :
  settled c ->
  selectedPostId (state (step cfg c ev)) <> selectedPostId (state c) ->
  log (step cfg c ev)
  = log c ++ handle cfg c ev ++ cancel_of (slot_of (log c))
    ++ body (commentsEffect (isAuthReady (state (step cfg c ev)))
                            (selectedPostId (state (step cfg c ev)))).
Proof.
  intros (Hdeps & Hslot & Hclean & Hcomments) Hchange.
  set (c1 := {| state := run (handle cfg c ev) (state c);
                comments_deps := comments_deps c;
                comments_cleanup := comments_cleanup c;
                log := log c ++ handle cfg c ev |}).
  assert (comments_cleanup c1 = cancel_of (slot_of (log c1))) as Hclean1.
  { unfold c1; cbn [comments_cleanup log].
    rewrite slot_of_app, quiet_slot by apply handle_quiet. done. }
  destruct (commit_keeps_deps c1 Hclean1) as [Hr Hs].
  change (step cfg c ev) with (commit c1) in *.
  rewrite Hr, Hs. unfold commit. case_decide as Heq.
  - exfalso. apply Hchange. rewrite Hs.
    unfold c1 in Heq; cbn [state comments_deps] in Heq.
    rewrite Hdeps in Heq. by inversion Heq.
  - unfold c1; cbn [state comments_cleanup log fst snd].
    rewrite Hclean. by rewrite <- !app_assoc.
Qed.

Lemma navigate_home_clears_selection cfg c :
  settled c -> selectedPostId (state (step cfg c (Navigate "HOME"))) = None.
Proof.
  intros (Hdeps & Hslot & Hclean & Hcomments).
  set (c1 := {| state := run (handle cfg c (Navigate "HOME")) (state c);
                comments_deps := comments_deps c;
                comments_cleanup := comments_cleanup c;
                log := log c ++ handle cfg c (Navigate "HOME") |}).
  assert (comments_cleanup c1 = cancel_of (slot_of (log c1))) as Hclean1.
  { unfold c1; cbn [comments_cleanup log].
    rewrite slot_of_app, quiet_slot by apply handle_quiet. done. }
  destruct (commit_keeps_deps c1 Hclean1) as [_ Hs].
  change (step cfg c (Navigate "HOME")) with (commit c1). by rewrite Hs.
Qed.

(** C3: at every point of the life of the component the comments
    listener slot holds exactly the listener of the selected post (none
    when no post is selected or auth is not ready) and the log never adds
    a listener over a live one nor cancels one that is not live; no
    handler touches the listener itself; when an event changes the
    selected post id, the log grows by what the handler did, then the one
    cancellation of the live listener if there is one, then the new run
    of the effect, which is where the new listener is added; with no selected post, and so after a navigation to Home, the
    comment list is empty and the slot is idle. *)
Theorem comments_listener_follows_selection :
  forall (cfg : Config) (evs : list event) (ev : event),
    let c := steps cfg evs in
    let c' := step cfg c ev in
    slot_of (log c')
    = wanted_slot (isAuthReady (state c')) (selectedPostId (state c'))
    /\ Forall quiet (handle cfg c ev)
    /\ (selectedPostId (state c') <> selectedPostId (state c) ->
        log c'
        = log c ++ handle cfg c ev ++ cancel_of (slot_of (log c))
          ++ body (commentsEffect (isAuthReady (state c'))
                                  (selectedPostId (state c'))))
    /\ (selectedPostId (state c') = None ->
        comments (state c') = [] /\ slot_of (log c') = Idle)
    /\ (let h := step cfg c (Navigate "HOME") in
        selectedPostId (state h) = None
        /\ comments (state h) = []
        /\ slot_of (log h) = Idle).
Proof.
  intros cfg evs ev c c'.
  pose proof (steps_settled cfg evs) as Hc. fold c in Hc.
  pose proof (step_settled cfg c ev Hc) as Hc'. fold c' in Hc'.
  assert (forall x, settled x -> selectedPostId (state x) = None ->
                    comments (state x) = [] /\ slot_of (log x) = Idle) as Hnone.
  { intros x (_ & Hslot & _ & Hcomments) Hsel.
    rewrite Hsel in Hslot. simpl in Hslot. by split; [apply Hcomments|]. }
  split; [apply Hc'|].
  split; [apply handle_quiet|].
  split; [by apply step_log_on_change|].
  split; [by apply Hnone|].
  pose proof (navigate_home_clears_selection cfg c Hc) as Hhome.
  split; [done|].
  apply Hnone; [by apply step_settled|done].
Qed.

Lemma comments_listener_follows_selection_witness :
  selectedPostId (state (step sample_config (steps sample_config reading_p1)
                              (SelectPost "p2")))
  <> selectedPostId (state (steps sample_config reading_p1))
  /\ log (step sample_config (steps sample_config reading_p1) (SelectPost "p2"))
     = log (steps sample_config reading_p1)
       ++ [SetSelectedPostId (Some "p2"%string); SetView "POST_DETAIL"]
       ++ [Call (Unsubscribe (CommentsCollection "p1"))]
       ++ [SetLoading true; Call (OnSnapshot (CommentsCollection "p2"))].
Proof.
  assert (selectedPostId (state (step sample_config
                                      (steps sample_config reading_p1)
                                      (SelectPost "p2")))
          <> selectedPostId (state (steps sample_config reading_p1))) as Hne.
  { vm_compute. discriminate. }
  split; [exact Hne|].
  exact (proj1 (proj2 (proj2 (comments_listener_follows_selection
                                sample_config reading_p1 (SelectPost "p2"))))
               Hne).
Defined.

(** ** Writes started from the forms *)

(** A failed post creation: the message is shown, and the title and the
    content typed into the form are gone. *)
Lemma failed_post_creation_clears_the_form :
  firebase_calls
    (ProfileView.handlePostCreate alice_on_profile draft_post
       (Rejected "permission-denied")).2
  = [AddDoc PostsCollection
       {[ "title"%string := VStr "T";
          "content"%string := VStr "C";
          "authorId"%string := VStr "u1";
          "authorName"%string := VStr "Alice";
          "createdAt"%string := VServerTimestamp ]}]
  /\ error (run (ProfileView.handlePostCreate alice_on_profile draft_post
                   (Rejected "permission-denied")).2 alice_on_profile)
     = Some "permission-denied"%string
  /\ (ProfileView.handlePostCreate alice_on_profile draft_post
        (Rejected "permission-denied")).1
     = {| ProfileView.displayName := "Alice";
          ProfileView.postTitle := "";
          ProfileView.postContent := "" |}
  /\ (ProfileView.handlePostCreate alice_on_profile draft_post
        (Rejected "permission-denied")).1 <> draft_post.
Proof.
  split; [by vm_compute|].
  split; [by vm_compute|].
  split; [by vm_compute|].
  vm_compute. discriminate.
Qed.

(** C4 (amended): when a write started from a form fails, its message
    becomes the error shown and loading is switched off; the profile form
    keeps its display name, while the post form's title and content and
    the comment form's text are emptied by the submit itself, whichever
    way the write settles. *)
Theorem failed_write_is_surfaced :
  forall (st : AppState) (message : string),
    (forall f,
        let out := ProfileView.handleProfileUpdate st f (Rejected message) in
        out.1 = f
        /\ (firebase_calls out.2 <> [] ->
            error (run out.2 st) = Some message
            /\ loading (run out.2 st) = false))
    /\ (forall f,
          let out := ProfileView.handlePostCreate st f (Rejected message) in
          firebase_calls out.2 <> [] ->
          error (run out.2 st) = Some message
          /\ loading (run out.2 st) = false
          /\ out.1 = {| ProfileView.displayName := ProfileView.displayName f;
                        ProfileView.postTitle := "";
                        ProfileView.postContent := "" |})
    /\ (forall f,
          let out := PostDetailView.handleSubmit st f (Rejected message) in
          firebase_calls out.2 <> [] ->
          error (run out.2 st) = Some message
          /\ loading (run out.2 st) = false
          /\ out.1 = {| PostDetailView.commentText := "" |})
    /\ (forall f r,
          (ProfileView.handlePostCreate st f r).1
          = (ProfileView.handlePostCreate st f Resolved).1)
    /\ (forall f r,
          (PostDetailView.handleSubmit st f r).1
          = (PostDetailView.handleSubmit st f Resolved).1).
Proof.
  intros st message.
  split; [|split; [|split; [|split]]].
  - intros f. unfold ProfileView.handleProfileUpdate, handleUpdateProfile.
    repeat case_match; simpl; split; try done; by intros [].
  - intros f. unfold ProfileView.handlePostCreate.
    repeat case_match; simpl; intros Hcall; done.
  - intros f. unfold PostDetailView.handleSubmit, handleAddComment.
    repeat case_match; simpl; intros Hcall; done.
  - intros f r. unfold ProfileView.handlePostCreate. repeat case_match; done.
  - intros f r. unfold PostDetailView.handleSubmit. repeat case_match; done.
Qed.

Lemma failed_write_is_surfaced_witness :
  error (run (ProfileView.handlePostCreate alice_on_profile draft_post
                (Rejected "permission-denied")).2 alice_on_profile)
  = Some "permission-denied"%string
  /\ loading (run (ProfileView.handlePostCreate alice_on_profile draft_post
                     (Rejected "permission-denied")).2 alice_on_profile)
     = false
  /\ (ProfileView.handlePostCreate alice_on_profile draft_post
        (Rejected "permission-denied")).1
     = {| ProfileView.displayName := "Alice";
          ProfileView.postTitle := "";
          ProfileView.postContent := "" |}.
Proof.
  apply (proj1 (proj2 (failed_write_is_surfaced alice_on_profile
                         "permission-denied")) draft_post).
  vm_compute. discriminate.
Defined.

(** ** The profile listener *)

(** A guest has no email; the default profile written for a guest
    nevertheless carries an [email] field, holding [null]. *)
Lemma guest_profile_has_email_field :
  userDataSnapshot guest None
  = [Call (SetDoc (UserDoc "g1")
                  {[ "displayName"%string := VStr "Anonymous User";
                     "email"%string := VNull ]} true)]
  /\ email guest = None
  /\ default_profile guest !! "email"%string = Some VNull
  /\ default_profile guest !! "email"%string <> None.
Proof.
  split; [by vm_compute|].
  split; [done|].
  split; [by vm_compute|].
  vm_compute. discriminate.
Qed.

(** C5 (amended): on a snapshot of the profile document of the user [u],
    an existing document replaces the local profile with its fields; for
    a missing one nothing changes locally and one merge write is made to
    the document of [u], of exactly two fields: [displayName], the name
    of the identity or "Anonymous User" when it has none (or an empty
    one), and [email], the email of the identity, or [null] when it has
    none. *)
Theorem profile_snapshot_replaces_or_creates :
  forall (u : User) (d : fields) (st : AppState),
    userData (run (userDataSnapshot u (Some d)) st) = Some d
    /\ firebase_calls (userDataSnapshot u (Some d)) = []
    /\ run (userDataSnapshot u None) st = st
    /\ firebase_calls (userDataSnapshot u None)
       = [SetDoc (UserDoc (uid u)) (default_profile u) true]
    /\ default_profile u !! "displayName"%string
       = Some (VStr (match displayName u with
                     | Some n => if decide (n = ""%string)
                                 then "Anonymous User"%string else n
                     | None => "Anonymous User"%string
                     end))
    /\ default_profile u !! "email"%string
       = Some (match email u with
               | Some e => VStr e
               | None => VNull
               end)
    /\ dom (default_profile u) = {[ "displayName"%string; "email"%string ]}.
Proof.
  intros u d st.
  do 4 (split; [done|]).
  split; [|split].
  - unfold default_profile. rewrite lookup_insert_eq.
    destruct (displayName u) as [[|]|]; done.
  - unfold default_profile. rewrite lookup_insert_ne by done.
    rewrite lookup_singleton_eq. by destruct (email u).
  - unfold default_profile. rewrite dom_insert_L, dom_singleton_L. done.
Qed.

Example alice_first_sign_in :
  firebase_calls (userDataSnapshot alice None)
  = [SetDoc (UserDoc "u1") alice_profile true]
  /\ userData (run (userDataSnapshot alice (Some alice_profile)) initial)
     = Some alice_profile.
Proof. split; by vm_compute. Qed.

(** ** Sessions *)

(** A sign-out whose anonymous sign-in rejects leaves no session at
    all; and where a bootstrap token is
    configured, the auth listener, called without a user once the
    sign-out has gone through, exchanges the token again, so that the
    session a signed-in user ends with is the one of the token, not an
    anonymous one. *)
Lemma sign_out_can_end_elsewhere :
  session_after (handleSignOut Resolved (Rejected "network-request-failed"))
                CredentialSession
  = NoSession
  /\ session_after
       (log (steps token_config
               [AuthStateChanged (Some alice) Resolved Resolved;
                ClickSignOut Resolved Resolved;
                AuthStateChanged None Resolved Resolved]))
       CredentialSession
     = CredentialSession.
Proof. split; by vm_compute. Qed.

(** C6 (amended): a sign-out makes, in this order, the sign-out call and
    an anonymous sign-in and nothing else.  The table gives the session
    for every way the two calls can settle: a sign-out that rejects
    changes nothing, an anonymous sign-in that rejects leaves no
    session, and when both resolve the session is the anonymous one,
    whatever it was before; in the last two cases the local profile and
    the local user are cleared and the view is Home, and in the first
    the state is left as it was.  Once the auth listener has reacted,
    without a user, to a sign-out whose two calls resolved, the session
    is still not null: it is the one of the bootstrap token where a
    token is configured and its exchange resolves, and an anonymous one
    otherwise, whether the listener's own anonymous sign-in resolves or
    not; and wherever in the course of the handler, after its sign-out
    call, that reaction of the listener falls, the session the two
    leave is not null.  When the auth listener is called with the new
    user, that user is the local user, the profile stays cleared and
    the view stays Home. *)
Theorem sign_out_session :
  forall (cfg : Config) (st : AppState) (s : Session) (u : User)
         (out_r anon_r token_r anon_r' : result),
    firebase_calls (handleSignOut Resolved Resolved)
    = [SignOut; SignInAnonymously]
    /\ session_after (handleSignOut out_r anon_r) s
       = match out_r, anon_r with
         | Resolved, Resolved => AnonymousSession
         | Resolved, Rejected _ => NoSession
         | Rejected _, _ => s
         end
    /\ (let st' := run (handleSignOut Resolved anon_r) st in
        userData st' = None
        /\ view st' = "HOME"%string
        /\ user st' = None
        /\ user (run (authStateChanged cfg (Some u) token_r anon_r') st')
           = Some u
        /\ userData (run (authStateChanged cfg (Some u) token_r anon_r') st')
           = None
        /\ view (run (authStateChanged cfg (Some u) token_r anon_r') st')
           = "HOME"%string)
    /\ session_after (handleSignOut Resolved Resolved
                        ++ authStateChanged cfg None token_r anon_r') s
       = (if truthy (initialAuthToken cfg)
          then match token_r with
               | Resolved => CredentialSession
               | Rejected _ => AnonymousSession
               end
          else AnonymousSession)
    /\ session_after (handleSignOut Resolved Resolved
                        ++ authStateChanged cfg None token_r anon_r') s
       <> NoSession
    /\ (forall before after,
          handleSignOut Resolved Resolved = before ++ after ->
          before <> [] ->
          session_after
            (before ++ authStateChanged cfg None token_r anon_r' ++ after) s
          <> NoSession)
    /\ (forall message,
          handleSignOut (Rejected message) anon_r
          = [Await SignOut (Rejected message)]
          /\ run (handleSignOut (Rejected message) anon_r) st = st).
Proof.
  intros cfg st s u out_r anon_r token_r anon_r'.
  split; [done|].
  split; [by destruct out_r, anon_r|].
  split; [by destruct anon_r|].
  cut (forall before after,
          handleSignOut Resolved Resolved = before ++ after ->
          before <> [] ->
          session_after
            (before ++ authStateChanged cfg None token_r anon_r' ++ after) s
          <> NoSession).
  { intros Hany.
    pose proof (Hany (handleSignOut Resolved Resolved) []) as Hlast.
    rewrite !app_nil_r in Hlast. specialize (Hlast eq_refl ltac:(done)).
    split; [|split; [exact Hlast|split; [exact Hany|done]]].
    revert Hlast. unfold authStateChanged, truthy.
    destruct (initialAuthToken cfg) as [token|];
      [destruct (truthy_str token)|];
      by destruct token_r, anon_r'. }
  intros before after Hsplit Hne.
  destruct before as [|a1 before]; [done|].
  unfold handleSignOut, await in Hsplit. simpl in Hsplit.
  injection Hsplit as <- Hsplit.
  unfold authStateChanged, truthy.
  do 4 (destruct before as [|? before];
        [simpl in Hsplit; subst after;
         destruct (initialAuthToken cfg) as [token|];
         [destruct (truthy_str token)|];
         by destruct token_r, anon_r'
        |simpl in Hsplit; injection Hsplit as <- Hsplit]).
  symmetry in Hsplit. apply app_eq_nil in Hsplit as [-> ->].
  destruct (initialAuthToken cfg) as [token|];
    [destruct (truthy_str token)|];
    by destruct token_r, anon_r'.
Qed.

(** ** Start-up *)

Lemma authStateChanged_ready_last cfg u token_r anon_r st pre a post :
  authStateChanged cfg u token_r anon_r = pre ++ a :: post ->
  isAuthReady (run pre st) = isAuthReady st.
Proof.
  unfold authStateChanged, signInAnonymously_then_ready, try_await, await.
  intros Heq.
  assert (forall acts : list action,
             acts = pre ++ a :: post ->
             Forall (fun x => forall b, x <> SetIsAuthReady b)
                    (take (length acts - 1) acts) ->
             isAuthReady (run pre st) = isAuthReady st) as Hgen.
  { intros acts -> Hall.
    rewrite length_app in Hall. simpl in Hall.
    replace (length pre + S (length post) - 1)%nat
      with (length pre + length post)%nat in Hall by lia.
    rewrite take_app_ge in Hall by lia.
    apply Forall_app in Hall as [Hpre _].
    clear -Hpre. revert st.
    induction pre as [|x pre IH]; intros st; [done|].
    inversion Hpre as [|? ? Hx Hrest]; subst. simpl.
    rewrite (IH Hrest). destruct x; try done. by destruct (Hx b). }
  apply (Hgen _ Heq). clear.
  repeat case_match; simpl; repeat constructor; done.
Qed.

(** C7: when the auth listener is called without a user, a bootstrap
    token is configured and its exchange fails, the callback logs the
    failure to the console, signs in anonymously and, once that has
    resolved, sets auth ready; it never sets the error shown to the
    user, and a resolved fallback leaves an anonymous session.  On every
    path of the callback auth ready is untouched before the last action,
    and a callback entered without a user and with auth not ready makes
    it ready exactly when one of its sign-ins has resolved. *)
Theorem token_failure_falls_back_to_anonymous :
  forall (cfg : Config) (token message : string) (anon_r : result)
         (st : AppState) (s : Session),
    initialAuthToken cfg = Some token ->
    truthy_str token = true ->
    let acts := authStateChanged cfg None (Rejected message) anon_r in
    acts = [Await (SignInWithCustomToken token) (Rejected message);
            ConsoleError "Error signing in with custom token:";
            Await SignInAnonymously anon_r]
           ++ match anon_r with
              | Resolved => [SetIsAuthReady true]
              | Rejected _ => []
              end
    /\ error (run acts st) = error st
    /\ (forall e, SetError e ∉ acts)
    /\ (anon_r = Resolved ->
        session_after acts s = AnonymousSession
        /\ isAuthReady (run acts st) = true)
    /\ (forall u token_r anon_r' pre a post,
          authStateChanged cfg u token_r anon_r' = pre ++ a :: post ->
          isAuthReady (run pre st) = isAuthReady st)
    /\ (forall token_r anon_r',
          isAuthReady st = false ->
          (isAuthReady (run (authStateChanged cfg None token_r anon_r') st)
           = true
           <-> session_after (authStateChanged cfg None token_r anon_r')
                             NoSession <> NoSession)).
Proof.
  intros cfg token message anon_r st s Htoken Htruthy acts.
  assert (acts = [Await (SignInWithCustomToken token) (Rejected message);
                  ConsoleError "Error signing in with custom token:";
                  Await SignInAnonymously anon_r]
                 ++ match anon_r with
                    | Resolved => [SetIsAuthReady true]
                    | Rejected _ => []
                    end) as Hacts.
  { unfold acts, authStateChanged. rewrite Htoken, Htruthy.
    by destruct anon_r. }
  split; [done|]. rewrite Hacts.
  split; [by destruct anon_r|].
  split.
  { intros e He. destruct anon_r; simpl in He;
      repeat (apply elem_of_cons in He as [He|He]; [discriminate|]);
      by apply elem_of_nil in He. }
  split; [by intros ->|].
  split.
  { intros u token_r anon_r' pre a post.
    apply authStateChanged_ready_last. }
  intros token_r anon_r' Hnot.
  unfold authStateChanged. rewrite Htoken, Htruthy.
  destruct token_r, anon_r'; simpl; rewrite ?Hnot; split; done.
Qed.

Lemma token_failure_falls_back_to_anonymous_witness :
  authStateChanged token_config None (Rejected "expired") Resolved
  = [Await (SignInWithCustomToken "bootstrap-token") (Rejected "expired");
     ConsoleError "Error signing in with custom token:";
     Await SignInAnonymously Resolved;
     SetIsAuthReady true]
  /\ error (run (authStateChanged token_config None (Rejected "expired")
                   Resolved) initial) = None
  /\ session_after (authStateChanged token_config None (Rejected "expired")
                      Resolved) NoSession = AnonymousSession
  /\ isAuthReady (run (authStateChanged token_config None (Rejected "expired")
                         Resolved) initial) = true.
Proof.
  destruct (token_failure_falls_back_to_anonymous
              token_config "bootstrap-token" "expired" Resolved initial
              NoSession eq_refl eq_refl)
    as (Hacts & Herr & _ & Hres & _).
  destruct (Hres eq_refl) as [Hsession Hready].
  split; [exact Hacts|].
  split; [exact Herr|].
  split; [exact Hsession|exact Hready].
Defined.

(** ** Failure of the posts listener *)

(** C8: the error callback of the posts listener switches loading off
    and sets the error shown to "Failed to load posts."; it calls nothing
    in Firebase, so nothing is subscribed again, and the posts list and
    every other part of the state stay as they were. *)
Theorem posts_failure_keeps_list :
  forall (st : AppState),
    let st' := run postsError st in
    loading st' = false
    /\ error st' = Some "Failed to load posts."%string
    /\ firebase_calls postsError = []
    /\ posts st' = posts st
    /\ comments st' = comments st
    /\ user st' = user st
    /\ userData st' = userData st
    /\ isAuthReady st' = isAuthReady st
    /\ view st' = view st
    /\ selectedPostId st' = selectedPostId st
    /\ renderView st' = renderView st.
Proof. intros st st'. by repeat split. Qed.

(** ** The view *)

(** C9: the screen [renderView] gives is the one the View Controller of
    the spec gives for auth ready, the identity and the requested view,
    and the element is that screen's component with the state as its
    data. *)
Theorem renderView_is_view_controller :
  forall (st : AppState),
    screen_of (renderView st)
    = view_controller (isAuthReady st) (identity_of (user st)) (view st)
    /\ renderView st
       = match view_controller (isAuthReady st) (identity_of (user st))
                               (view st) with
         | LoadingIndicator => Spinner
         | SignInPrompt => AuthView
         | Home => HomeView (posts st)
         | PostDetail =>
             PostDetailView_ (selectedPost st) (comments st) (user st)
                             (userData st)
         | Profile => ProfileView_ (userData st) (user st)
         end.
Proof.
  intros st.
  assert (renderView st
          = match view_controller (isAuthReady st) (identity_of (user st))
                                  (view st) with
            | LoadingIndicator => Spinner
            | SignInPrompt => AuthView
            | Home => HomeView (posts st)
            | PostDetail =>
                PostDetailView_ (selectedPost st) (comments st) (user st)
                                (userData st)
            | Profile => ProfileView_ (userData st) (user st)
            end) as Heq.
  { unfold renderView, view_controller, identity_of, isRealUser.
    destruct (isAuthReady st); simpl; [|done].
    destruct (user st) as [u|]; simpl; [|done].
    destruct (isAnonymous u); simpl; [done|].
    destruct (String.eqb_spec (view st) "HOME") as [->|Hhome]; [done|].
    rewrite decide_False by done.
    destruct (String.eqb_spec (view st) "POST_DETAIL") as [->|Hpost]; [done|].
    rewrite decide_False by done.
    destruct (String.eqb_spec (view st) "PROFILE") as [->|Hprofile]; [done|].
    by rewrite decide_False by done. }
  split; [|done]. rewrite Heq.
  by destruct (view_controller _ _ _).
Qed.

(** ** Operations without a target *)

Lemma step_unchanged cfg c ev :
  settled c -> handle cfg c ev = [] -> step cfg c ev = c.
Proof.
  intros (Hdeps & _) Hnil. unfold step. rewrite Hnil, app_nil_r. simpl.
  unfold commit. cbn [state comments_deps]. rewrite decide_True by done.
  by destruct c.
Qed.

(** C10: with no post selected, adding a comment does nothing: no call
    to Firebase and the state as it was; and so does a profile update
    with no user.  For the mounted component after any events, the
    component after such an operation is the component before it. *)
Theorem no_target_no_write :
  forall (st : AppState) (cfg : Config) (evs : list event)
         (text authorId newDisplayName : string) (authorName : value)
         (r : result),
    (selectedPostId st = None ->
     handleAddComment st text authorId authorName r = []
     /\ firebase_calls (handleAddComment st text authorId authorName r) = []
     /\ run (handleAddComment st text authorId authorName r) st = st)
    /\ (user st = None ->
        handleUpdateProfile st newDisplayName r = []
        /\ firebase_calls (handleUpdateProfile st newDisplayName r) = []
        /\ run (handleUpdateProfile st newDisplayName r) st = st)
    /\ (selectedPostId (state (steps cfg evs)) = None ->
        step cfg (steps cfg evs) (AddComment text authorId authorName r)
        = steps cfg evs)
    /\ (user (state (steps cfg evs)) = None ->
        step cfg (steps cfg evs) (UpdateProfile newDisplayName r)
        = steps cfg evs).
Proof.
  intros st cfg evs text authorId newDisplayName authorName r.
  split; [|split; [|split]].
  - intros Hsel. unfold handleAddComment. by rewrite Hsel.
  - intros Huser. unfold handleUpdateProfile. by rewrite Huser.
  - intros Hsel. apply step_unchanged; [apply steps_settled|].
    simpl. unfold handleAddComment. by rewrite Hsel.
  - intros Huser. apply step_unchanged; [apply steps_settled|].
    simpl. unfold handleUpdateProfile. by rewrite Huser.
Qed.

Lemma no_target_no_write_witness :
  handleAddComment initial "hello" "u1" (VStr "Alice") Resolved = []
  /\ firebase_calls (handleAddComment initial "hello" "u1" (VStr "Alice")
                                      Resolved) = []
  /\ run (handleAddComment initial "hello" "u1" (VStr "Alice") Resolved)
         initial = initial.
Proof.
  apply (proj1 (no_target_no_write initial sample_config [] "hello" "u1"
                                   "Alice" (VStr "Alice") Resolved)).
  reflexivity.
Defined.

(** * Further properties of the component *)

(** ** What one step keeps *)

Lemma commentsEffect_frame ready selected st :
  let st' := run (body (commentsEffect ready selected)) st in
  user st' = user st
  /\ userData st' = userData st
  /\ view st' = view st
  /\ posts st' = posts st
  /\ error st' = error st.
Proof. by destruct ready, selected as [[|]|]. Qed.

Lemma commit_frame c :
  comments_cleanup c = cancel_of (slot_of (log c)) ->
  let st' := state (commit c) in
  user st' = user (state c)
  /\ userData st' = userData (state c)
  /\ isAuthReady st' = isAuthReady (state c)
  /\ selectedPostId st' = selectedPostId (state c)
  /\ view st' = view (state c)
  /\ posts st' = posts (state c)
  /\ error st' = error (state c).
Proof.
  intros Hclean st'.
  destruct (commit_keeps_deps c Hclean) as [Hr Hs].
  assert (user st' = user (state c) /\ userData st' = userData (state c)
          /\ view st' = view (state c) /\ posts st' = posts (state c)
          /\ error st' = error (state c)) as (Hu & Hd & Hv & Hp & He).
  { unfold st', commit. case_decide; [done|].
    cbn [state fst snd]. rewrite run_app, Hclean, cancel_of_run.
    apply commentsEffect_frame. }
  done.
Qed.

Lemma step_handled cfg c ev : step cfg c ev = commit (handled cfg c ev).
Proof. done. Qed.

Lemma handled_cleanup cfg c ev :
  settled c ->
  comments_cleanup (handled cfg c ev)
  = cancel_of (slot_of (log (handled cfg c ev))).
Proof.
  intros (_ & _ & Hclean & _). unfold handled; cbn [comments_cleanup log].
  rewrite slot_of_app, quiet_slot by apply handle_quiet. done.
Qed.

Lemma step_frame cfg c ev :
  settled c ->
  let st1 := run (handle cfg c ev) (state c) in
  let st' := state (step cfg c ev) in
  user st' = user st1
  /\ userData st' = userData st1
  /\ isAuthReady st' = isAuthReady st1
  /\ selectedPostId st' = selectedPostId st1
  /\ view st' = view st1
  /\ posts st' = posts st1
  /\ error st' = error st1.
Proof.
  intros Hc. rewrite step_handled.
  apply (commit_frame (handled cfg c ev)). by apply handled_cleanup.
Qed.

(** ** Auth ready and the user *)

Ltac unfold_handlers :=
  unfold authStateChanged, signInAnonymously_then_ready, userDataSnapshot,
    postsSnapshot, postsError, commentsSnapshot, commentsError,
    handleSignOut, handleNavigate, handleSelectPost, handleUpdateProfile,
    handleCreatePost, handleAddComment, try_await, await.

Lemma handle_ready cfg c ev :
  isAuthReady (state c) = true ->
  isAuthReady (run (handle cfg c ev) (state c)) = true.
Proof.
  intros Hr. destruct ev; simpl; unfold_handlers; handler_cases; done.
Qed.

Lemma handle_user_ready cfg c ev :
  (is_Some (user (state c)) -> isAuthReady (state c) = true) ->
  is_Some (user (run (handle cfg c ev) (state c))) ->
  isAuthReady (run (handle cfg c ev) (state c)) = true.
Proof.
  intros Hinv. destruct ev; simpl; unfold_handlers; handler_cases;
    simpl; intros Hs;
    first [ done
          | by apply Hinv
          | by destruct Hs
          | by (specialize (Hinv ltac:(eauto)); congruence)
          | match goal with
            | H : user _ = None |- _ => rewrite H in Hs; by destruct Hs
            end ].
Qed.

Lemma steps_user_ready cfg evs :
  is_Some (user (state (steps cfg evs))) ->
  isAuthReady (state (steps cfg evs)) = true.
Proof.
  induction evs as [|ev evs IH] using rev_ind.
  - by intros [? ?].
  - rewrite steps_snoc.
    destruct (step_frame cfg (steps cfg evs) ev (steps_settled cfg evs))
      as (Hu & _ & Hr & _).
    rewrite Hu, Hr. by apply handle_user_ready.
Qed.

Lemma steps_ready_stays cfg evs more :
  isAuthReady (state (steps cfg evs)) = true ->
  isAuthReady (state (steps cfg (evs ++ more))) = true.
Proof.
  induction more as [|ev more IH] using rev_ind.
  - by rewrite app_nil_r.
  - intros Hr. rewrite app_assoc, steps_snoc.
    destruct (step_frame cfg (steps cfg (evs ++ more)) ev
                (steps_settled cfg (evs ++ more))) as (_ & _ & Hr' & _).
    rewrite Hr'. apply handle_ready. by apply IH.
Qed.

(** X1: once auth is ready it stays ready through every later event,
    and the component never holds a user while auth is not ready. *)
Theorem auth_ready_is_permanent :
  forall (cfg : Config) (evs more : list event),
    (isAuthReady (state (steps cfg evs)) = true ->
     isAuthReady (state (steps cfg (evs ++ more))) = true)
    /\ (is_Some (user (state (steps cfg evs))) ->
        isAuthReady (state (steps cfg evs)) = true).
Proof.
  intros cfg evs more. split.
  - apply steps_ready_stays.
  - apply steps_user_ready.
Qed.

Lemma auth_ready_is_permanent_witness :
  isAuthReady (state (steps sample_config
                        ([AuthStateChanged (Some alice) Resolved Resolved]
                         ++ [ClickSignOut Resolved Resolved;
                             Navigate "PROFILE"]))) = true.
Proof.
  apply (proj1 (auth_ready_is_permanent sample_config
                  [AuthStateChanged (Some alice) Resolved Resolved]
                  [ClickSignOut Resolved Resolved; Navigate "PROFILE"])).
  reflexivity.
Defined.

(** X2: in every state the component can reach, the navbar has a user,
    and so offers Profile and Sign Out, exactly when the main area shows
    neither the spinner nor the sign-in prompt. *)
Theorem navbar_agrees_with_view :
  forall (cfg : Config) (evs : list event),
    let st := state (steps cfg evs) in
    navbar_user st = None
    <-> (renderView st = Spinner \/ renderView st = AuthView).
Proof.
  intros cfg evs st.
  pose proof (steps_user_ready cfg evs) as Hinv. fold st in Hinv.
  unfold navbar_user, renderView, isRealUser.
  destruct (user st) as [u|] eqn:Hu.
  - rewrite Hinv by eauto. simpl.
    destruct (isAnonymous u); simpl.
    + split; [by right|done].
    + split; [done|]. intros [H|H]; repeat case_match; done.
  - split; [|done]. intros _. destruct (isAuthReady st); simpl; auto.
Qed.

Lemma navbar_agrees_with_view_witness :
  navbar_user (state (steps sample_config [])) = None.
Proof.
  apply (proj2 (navbar_agrees_with_view sample_config [])).
  left. reflexivity.
Defined.

(** ** Events that leave the comments listener alone *)

Lemma step_no_dep_change cfg c ev :
  settled c ->
  isAuthReady (run (handle cfg c ev) (state c)) = isAuthReady (state c) ->
  selectedPostId (run (handle cfg c ev) (state c)) = selectedPostId (state c) ->
  step cfg c ev = handled cfg c ev.
Proof.
  intros (Hdeps & _) Hr Hs. rewrite step_handled. unfold commit.
  rewrite decide_True; [done|].
  unfold handled; cbn [state comments_deps]. by rewrite Hr, Hs.
Qed.

Lemma step_state_on_change cfg c ev :
  settled c ->
  (isAuthReady (run (handle cfg c ev) (state c)),
   selectedPostId (run (handle cfg c ev) (state c)))
  <> (isAuthReady (state c), selectedPostId (state c)) ->
  state (step cfg c ev)
  = run (body (commentsEffect
                 (isAuthReady (run (handle cfg c ev) (state c)))
                 (selectedPostId (run (handle cfg c ev) (state c)))))
        (run (handle cfg c ev) (state c))
  /\ log (step cfg c ev)
     = log c ++ handle cfg c ev ++ cancel_of (slot_of (log c))
       ++ body (commentsEffect
                  (isAuthReady (run (handle cfg c ev) (state c)))
                  (selectedPostId (run (handle cfg c ev) (state c)))).
Proof.
  intros (Hdeps & Hslot & Hclean & Hcomments) Hne.
  rewrite step_handled. unfold commit.
  rewrite decide_False.
  - unfold handled; cbn [state comments_cleanup log fst snd].
    rewrite run_app, Hclean, cancel_of_run. split; [done|].
    by rewrite <- !app_assoc.
  - unfold handled; cbn [state comments_deps]. by rewrite Hdeps.
Qed.

(** X3: a navigation to any view but Home shows that view and clears
    the error, and it leaves the selected post, its comments and the
    comments listener as they were: nothing is cancelled. *)
Theorem navigate_elsewhere_keeps_listener :
  forall (cfg : Config) (evs : list event) (target : string),
    target <> "HOME"%string ->
    let c := steps cfg evs in
    let c' := step cfg c (Navigate target) in
    view (state c') = target
    /\ error (state c') = None
    /\ selectedPostId (state c') = selectedPostId (state c)
    /\ comments (state c') = comments (state c)
    /\ log c' = log c ++ [SetError None; SetView target]
    /\ slot_of (log c') = slot_of (log c).
Proof.
  intros cfg evs target Hne c c'.
  assert (handle cfg c (Navigate target) = [SetError None; SetView target])
    as Hacts.
  { simpl. unfold handleNavigate.
    destruct (String.eqb_spec target "HOME"); done. }
  assert (c' = handled cfg c (Navigate target)) as ->.
  { apply step_no_dep_change; [apply steps_settled| |]; by rewrite Hacts. }
  unfold handled; cbn [state log]. rewrite Hacts.
  repeat split. by rewrite slot_of_app.
Qed.

Lemma navigate_elsewhere_keeps_listener_witness :
  slot_of (log (step sample_config (steps sample_config reading_p1)
                     (Navigate "PROFILE")))
  = slot_of (log (steps sample_config reading_p1)).
Proof.
  apply (navigate_elsewhere_keeps_listener sample_config reading_p1 "PROFILE").
  discriminate.
Defined.

(** X4: creating a post never touches the selection: when the write
    resolves the view becomes Home, yet, unlike a navigation to Home, the
    selected post, its comments and the comments listener are kept; when
    it rejects the view stays and the message is the error.  Either way
    loading ends switched off and the posts list is not changed
    locally. *)
Theorem create_post_keeps_selection :
  forall (cfg : Config) (evs : list event) (title content authorId : string)
         (authorName : value) (r : result),
    let c := steps cfg evs in
    let c' := step cfg c (CreatePost title content authorId authorName r) in
    selectedPostId (state c') = selectedPostId (state c)
    /\ slot_of (log c') = slot_of (log c)
    /\ comments (state c') = comments (state c)
    /\ posts (state c') = posts (state c)
    /\ loading (state c') = false
    /\ view (state c') = match r with
                         | Resolved => "HOME"%string
                         | Rejected _ => view (state c)
                         end
    /\ error (state c') = match r with
                          | Resolved => None
                          | Rejected message => Some message
                          end.
Proof.
  intros cfg evs title content authorId authorName r c c'.
  assert (c' = handled cfg c (CreatePost title content authorId authorName r))
    as ->.
  { apply step_no_dep_change; [apply steps_settled| |]; by destruct r. }
  unfold handled; cbn [state log].
  rewrite slot_of_app, quiet_slot by apply handle_quiet.
  by destruct r.
Qed.

(** X5: when a post other than the selected one is opened and Home is
    chosen before any snapshot of its comments has come, the listener is
    cancelled and the comment list emptied, but the loading indicator the
    effect had switched on stays on. *)
Theorem spinner_left_on_after_quick_return :
  forall (cfg : Config) (evs : list event) (postId : string),
    let c := steps cfg evs in
    isAuthReady (state c) = true ->
    truthy_str postId = true ->
    selectedPostId (state c) <> Some postId ->
    let opened := step cfg c (SelectPost postId) in
    let back := step cfg opened (Navigate "HOME") in
    slot_of (log opened) = Subscribed postId
    /\ loading (state opened) = true
    /\ slot_of (log back) = Idle
    /\ comments (state back) = []
    /\ view (state back) = "HOME"%string
    /\ loading (state back) = true.
Proof.
  intros cfg evs postId c Hready Htruthy Hsel opened back.
  pose proof (steps_settled cfg evs) as Hc. fold c in Hc.
  pose proof (step_settled cfg c (SelectPost postId) Hc) as Ho.
  fold opened in Ho.
  destruct (step_state_on_change cfg c (SelectPost postId) Hc) as [Hst _].
  { simpl. intros Heq. apply Hsel. by inversion Heq. }
  fold opened in Hst. simpl in Hst. rewrite Hready in Hst.
  unfold commentsEffect in Hst. simpl in Hst. rewrite Htruthy in Hst.
  simpl in Hst.
  assert (selectedPostId (state opened) = Some postId) as Hsel'
      by (by rewrite Hst).
  assert (isAuthReady (state opened) = true) as Hready'
      by (by rewrite Hst).
  assert (loading (state opened) = true) as Hload by (by rewrite Hst).
  destruct Ho as (Hod & Hos & Hoc & Hoe).
  split.
  { rewrite Hos, Hsel', Hready'. simpl. by rewrite Htruthy. }
  split; [done|].
  assert (settled opened) as Ho by done.
  destruct (step_state_on_change cfg opened (Navigate "HOME") Ho) as [Hb _].
  { simpl. rewrite Hsel'. intros Heq. by inversion Heq. }
  fold back in Hb. simpl in Hb.
  pose proof (step_settled cfg opened (Navigate "HOME") Ho)
    as (Hbd & Hbs & Hbc & Hbe).
  fold back in Hbd, Hbs, Hbc, Hbe.
  assert (selectedPostId (state back) = None) as Hnone
      by (by apply navigate_home_clears_selection).
  rewrite Hnone in Hbs. simpl in Hbs.
  split; [done|]. split; [by apply Hbe|].
  rewrite Hb, Hready', Hload. done.
Qed.

Lemma spinner_left_on_after_quick_return_witness :
  loading (state (step sample_config
                       (step sample_config
                             (steps sample_config
                                    [AuthStateChanged (Some alice) Resolved
                                                      Resolved])
                             (SelectPost "p1"))
                       (Navigate "HOME"))) = true.
Proof.
  apply (spinner_left_on_after_quick_return sample_config
           [AuthStateChanged (Some alice) Resolved Resolved] "p1").
  - reflexivity.
  - reflexivity.
  - discriminate.
Defined.

(** ** Where the component writes *)

Lemma post_fields_lookup title content authorId authorName :
  let data : fields :=
    {[ "title"%string := VStr title;
       "content"%string := VStr content;
       "authorId"%string := VStr authorId;
       "authorName"%string := authorName;
       "createdAt"%string := VServerTimestamp ]} in
  data !! "createdAt"%string = Some VServerTimestamp
  /\ data !! "id"%string = None
  /\ data !! "title"%string = Some (VStr title)
  /\ data !! "content"%string = Some (VStr content)
  /\ data !! "authorId"%string = Some (VStr authorId)
  /\ data !! "authorName"%string = Some authorName.
Proof. simpl. repeat split; by simplify_map_eq. Qed.

Lemma comment_fields_lookup text authorId authorName :
  let data : fields :=
    {[ "text"%string := VStr text;
       "authorId"%string := VStr authorId;
       "authorName"%string := authorName;
       "createdAt"%string := VServerTimestamp ]} in
  data !! "createdAt"%string = Some VServerTimestamp
  /\ data !! "id"%string = None
  /\ data !! "text"%string = Some (VStr text)
  /\ data !! "authorId"%string = Some (VStr authorId)
  /\ data !! "authorName"%string = Some authorName.
Proof. simpl. repeat split; by simplify_map_eq. Qed.

(** X6: whatever the event and the state, every document write the
    user data listener and the profile, post and comment handlers make
    is a merge write to the document of the current user, and every
    append goes to the posts collection or to the comments of the
    selected post, carries the server timestamp placeholder as
    [createdAt] and has no field named [id].  The one other write of the
    component is the one of [handleSignIn]: whatever the current user,
    a merge write to the document of the user the popup returned; it
    appends nothing, and writes nothing when the popup is rejected. *)
Theorem writes_stay_in_bounds :
  forall (cfg : Config) (c : Component) (ev : event)
         (popup_r : popup_result) (write_r : result),
    Forall (write_in_bounds (state c)) (firebase_calls (handle cfg c ev))
    /\ Forall (sign_in_write_in_bounds popup_r)
              (firebase_calls (actions_of (handleSignIn popup_r write_r)))
    /\ (forall m, popup_r = PopupRejected m ->
                  firebase_calls (actions_of (handleSignIn popup_r write_r))
                  = []).
Proof.
  intros cfg c ev popup_r write_r.
  split; [|split].
  - destruct ev; simpl; unfold_handlers; handler_cases;
      repeat match goal with
             | |- Forall _ _ => constructor
             end;
      simpl; try done.
    all: try (split; [done|eauto]).
    all: match goal with
         | |- context [PostsCollection] =>
             split; [by left|];
             split; [apply post_fields_lookup|apply post_fields_lookup]
         | |- context [CommentsCollection] =>
             split; [right; eauto|];
             split; [apply comment_fields_lookup|apply comment_fields_lookup]
         end.
  - destruct popup_r as [u|m], write_r; simpl;
      repeat match goal with
             | |- Forall _ _ => constructor
             end;
      simpl; try done.
    all: split; [done|]; by exists u.
  - by intros m ->.
Qed.

(** ** Where one element lands in the sorted array *)
Section JsSortPosition.
Context {A : Type} (cmp : A -> A -> Z) (key : A -> Z).
Hypothesis cmp_key : forall a b, cmp a b = key a - key b.

Lemma filter_key_nil k (l : list A) :
  (forall y, y ∈ l -> key y <> k) -> filter (fun a => key a = k) l = [].
Proof.
  induction l as [|y l IH]; intros Hl; [done|].
  rewrite filter_cons. rewrite decide_False by (apply Hl; by left).
  apply IH. intros z Hz. apply Hl. by right.
Qed.

Lemma js_sort_least pre x post :
  (forall y, y ∈ pre ++ post -> key x < key y) ->
  js_sort cmp (pre ++ x :: post) = x :: js_sort cmp (pre ++ post).
Proof.
  intros Hleast. symmetry. apply (js_sort_unique cmp key cmp_key).
  - constructor; [by apply js_sort_sorted|].
    destruct (js_sort cmp (pre ++ post)) as [|z l] eqn:Hz; constructor.
    assert (z ∈ pre ++ post) as Hin.
    { rewrite <- (js_sort_perm cmp (pre ++ post)), Hz. by left. }
    specialize (Hleast z Hin). lia.
  - intros k. rewrite filter_cons, (js_sort_stable cmp key cmp_key).
    rewrite !filter_app, filter_cons.
    case_decide as Hk; [|done].
    rewrite (filter_key_nil k pre); [done|].
    intros y Hy. specialize (Hleast y ltac:(apply elem_of_app; by left)). lia.
Qed.

Lemma js_sort_greatest pre x post :
  (forall y, y ∈ pre ++ post -> key y < key x) ->
  js_sort cmp (pre ++ x :: post) = js_sort cmp (pre ++ post) ++ [x].
Proof.
  intros Hgreatest. symmetry. apply (js_sort_unique cmp key cmp_key).
  - apply Sorted_snoc; [by apply js_sort_sorted|].
    destruct (reverse (js_sort cmp (pre ++ post))) as [|z l] eqn:Hz.
    + apply (f_equal reverse) in Hz. rewrite reverse_involutive in Hz.
      rewrite Hz. constructor.
    + apply (f_equal reverse) in Hz. rewrite reverse_involutive in Hz.
      rewrite Hz, reverse_cons. constructor.
      assert (z ∈ pre ++ post) as Hin.
      { rewrite <- (js_sort_perm cmp (pre ++ post)), Hz, reverse_cons.
        apply elem_of_app. right. by left. }
      specialize (Hgreatest z Hin). lia.
  - intros k. rewrite filter_app, (js_sort_stable cmp key cmp_key).
    rewrite !filter_app, !filter_cons, filter_nil.
    case_decide as Hk; [|by rewrite app_nil_r].
    rewrite (filter_key_nil k post); [by rewrite app_nil_r|].
    intros y Hy. specialize (Hgreatest y ltac:(apply elem_of_app; by right)).
    lia.
Qed.
End JsSortPosition.

(** X7: in a posts snapshot, a document whose [createdAt] seconds are
    strictly above those of all the others is listed first, ahead of
    the others in their own order; one strictly below all the others is
    listed last, and so is a document without a timestamp (a post whose
    server timestamp is still pending) when all the others have positive
    seconds. *)
Theorem newest_post_first_pending_last :
  forall (st : AppState) (pre post : list QueryDocumentSnapshot)
         (d : QueryDocumentSnapshot),
    let listed := posts (run (postsSnapshot (pre ++ d :: post)) st) in
    let others := posts (run (postsSnapshot (pre ++ post)) st) in
    ((forall y, y ∈ pre ++ post ->
                sort_key (with_id y) < sort_key (with_id d)) ->
     listed = with_id d :: others)
    /\ ((forall y, y ∈ pre ++ post ->
                   sort_key (with_id d) < sort_key (with_id y)) ->
        listed = others ++ [with_id d])
    /\ (createdAt_seconds (with_id d) = None ->
        (forall y, y ∈ pre ++ post -> 0 < sort_key (with_id y)) ->
        listed = others ++ [with_id d]).
Proof.
  intros st pre post d listed others.
  assert (forall a b, posts_cmp a b = - sort_key a - - sort_key b) as Hcmp
      by (intros a b; unfold posts_cmp; lia).
  assert (listed = js_sort posts_cmp
                     (map with_id pre ++ with_id d :: map with_id post))
    as Hl by (unfold listed; simpl; by rewrite map_app).
  assert (others = js_sort posts_cmp (map with_id pre ++ map with_id post))
    as Ho by (unfold others; simpl; by rewrite map_app).
  assert (forall P : fields -> Prop,
             (forall y, y ∈ pre ++ post -> P (with_id y)) ->
             forall z, z ∈ map with_id pre ++ map with_id post -> P z) as Hmap.
  { intros P HP z Hz. rewrite <- map_app in Hz.
    apply list_elem_of_fmap in Hz as (y & -> & Hy). by apply HP. }
  rewrite Hl, Ho.
  assert ((forall y, y ∈ pre ++ post ->
                     sort_key (with_id d) < sort_key (with_id y)) ->
          js_sort posts_cmp (map with_id pre ++ with_id d :: map with_id post)
          = js_sort posts_cmp (map with_id pre ++ map with_id post)
            ++ [with_id d]) as Hlast.
  { intros Hd.
    apply (js_sort_greatest posts_cmp (fun a => - sort_key a) Hcmp).
    intros z Hz.
    pose proof (Hmap (fun z => sort_key (with_id d) < sort_key z) Hd z Hz).
    simpl in *. lia. }
  split; [|split; [done|]].
  - intros Hd.
    apply (js_sort_least posts_cmp (fun a => - sort_key a) Hcmp).
    intros z Hz.
    pose proof (Hmap (fun z => sort_key z < sort_key (with_id d)) Hd z Hz).
    simpl in *. lia.
  - intros Hnone Hpos. apply Hlast. intros y Hy.
    unfold sort_key at 1. rewrite Hnone. simpl. by apply Hpos.
Qed.

Lemma newest_post_first_pending_last_witness :
  posts (run (postsSnapshot ([first_post] ++ second_post :: [])) initial)
  = with_id second_post
    :: posts (run (postsSnapshot ([first_post] ++ [])) initial).
Proof.
  apply (proj1 (newest_post_first_pending_last initial [first_post] []
                  second_post)).
  intros y Hy. apply list_elem_of_singleton in Hy. subst y.
  vm_compute. reflexivity.
Defined.

(** X8: in a comments snapshot, a document whose [createdAt] seconds
    are strictly below those of all the others is listed first and one
    strictly above all the others last; a comment without a timestamp (its
    server timestamp still pending) is listed first, above every comment
    with positive seconds. *)
Theorem oldest_comment_first_pending_first :
  forall (st : AppState) (pre post : list QueryDocumentSnapshot)
         (d : QueryDocumentSnapshot),
    let listed := comments (run (commentsSnapshot (pre ++ d :: post)) st) in
    let others := comments (run (commentsSnapshot (pre ++ post)) st) in
    ((forall y, y ∈ pre ++ post ->
                sort_key (with_id d) < sort_key (with_id y)) ->
     listed = with_id d :: others)
    /\ ((forall y, y ∈ pre ++ post ->
                   sort_key (with_id y) < sort_key (with_id d)) ->
        listed = others ++ [with_id d])
    /\ (createdAt_seconds (with_id d) = None ->
        (forall y, y ∈ pre ++ post -> 0 < sort_key (with_id y)) ->
        listed = with_id d :: others).
Proof.
  intros st pre post d listed others.
  assert (forall a b, comments_cmp a b = sort_key a - sort_key b) as Hcmp
      by done.
  assert (listed = js_sort comments_cmp
                     (map with_id pre ++ with_id d :: map with_id post))
    as Hl by (unfold listed; simpl; by rewrite map_app).
  assert (others = js_sort comments_cmp (map with_id pre ++ map with_id post))
    as Ho by (unfold others; simpl; by rewrite map_app).
  assert (forall P : fields -> Prop,
             (forall y, y ∈ pre ++ post -> P (with_id y)) ->
             forall z, z ∈ map with_id pre ++ map with_id post -> P z) as Hmap.
  { intros P HP z Hz. rewrite <- map_app in Hz.
    apply list_elem_of_fmap in Hz as (y & -> & Hy). by apply HP. }
  rewrite Hl, Ho.
  assert ((forall y, y ∈ pre ++ post ->
                     sort_key (with_id d) < sort_key (with_id y)) ->
          js_sort comments_cmp
                  (map with_id pre ++ with_id d :: map with_id post)
          = with_id d
            :: js_sort comments_cmp (map with_id pre ++ map with_id post))
    as Hfirst.
  { intros Hd. apply (js_sort_least comments_cmp sort_key Hcmp).
    intros z Hz.
    apply (Hmap (fun z => sort_key (with_id d) < sort_key z) Hd z Hz). }
  split; [done|split].
  - intros Hd. apply (js_sort_greatest comments_cmp sort_key Hcmp).
    intros z Hz.
    apply (Hmap (fun z => sort_key z < sort_key (with_id d)) Hd z Hz).
  - intros Hnone Hpos. apply Hfirst. intros y Hy.
    unfold sort_key at 1. rewrite Hnone. simpl. by apply Hpos.
Qed.

Lemma oldest_comment_first_pending_first_witness :
  comments (run (commentsSnapshot
                   ([comment_at_100] ++ pending_comment :: [comment_at_50]))
                initial)
  = with_id pending_comment
    :: comments (run (commentsSnapshot ([comment_at_100] ++ [comment_at_50]))
                     initial).
Proof.
  apply (proj2 (proj2 (oldest_comment_first_pending_first initial
                         [comment_at_100] [comment_at_50] pending_comment))).
  - vm_compute. reflexivity.
  - intros y Hy. apply elem_of_cons in Hy as [->|Hy].
    + vm_compute. reflexivity.
    + apply list_elem_of_singleton in Hy. subst y. vm_compute. reflexivity.
Defined.

(** ** The selected post *)

Lemma find_the_one {A} (f : A -> bool) (l : list A) x :
  x ∈ l -> f x = true -> (forall y, y ∈ l -> f y = true -> y = x) ->
  List.find f l = Some x.
Proof.
  induction l as [|z l IH]; intros Hin Hx Huniq.
  - by apply elem_of_nil in Hin.
  - simpl. destruct (f z) eqn:Hz.
    + f_equal. apply Huniq; [by left|done].
    + apply IH; [|done|].
      * apply elem_of_cons in Hin as [->|Hin]; [congruence|done].
      * intros y Hy. apply Huniq. by right.
Qed.

Lemma find_no_one {A} (f : A -> bool) (l : list A) :
  (forall y, y ∈ l -> f y = false) -> List.find f l = None.
Proof.
  induction l as [|z l IH]; intros Hl; [done|].
  simpl. rewrite (Hl z) by (by left). apply IH. intros y Hy. apply Hl. by right.
Qed.

Lemma same_id_same_doc (docs : list QueryDocumentSnapshot) d e :
  NoDup (map doc_id docs) -> d ∈ docs -> e ∈ docs ->
  doc_id d = doc_id e -> d = e.
Proof.
  induction docs as [|x docs IH]; intros Hnd Hd He Hid.
  - by apply elem_of_nil in Hd.
  - simpl in Hnd. apply NoDup_cons in Hnd as [Hx Hnd].
    apply elem_of_cons in Hd as [->|Hd], He as [->|He]; try done.
    + exfalso. apply Hx. rewrite Hid. by apply list_elem_of_fmap_2.
    + exfalso. apply Hx. rewrite <- Hid. by apply list_elem_of_fmap_2.
    + by apply IH.
Qed.

Lemma listed_id d :
  doc_data d !! "id"%string = None -> get (with_id d) "id" = VStr (doc_id d).
Proof. intros Hid. unfold get. by rewrite with_id_lookup, Hid. Qed.

(** X9: after a posts snapshot whose documents have distinct ids and no
    field of their own named [id], each listed post carries the id of its
    document, and selecting that id makes the selected post exactly that
    document as listed; selecting an id no document of the snapshot has
    gives no selected post. *)
Theorem selected_post_is_the_clicked_one :
  forall (st : AppState) (docs : list QueryDocumentSnapshot)
         (d : QueryDocumentSnapshot) (missing : string),
    NoDup (map doc_id docs) ->
    Forall (fun x => doc_data x !! "id"%string = None) docs ->
    (d ∈ docs ->
     get (with_id d) "id" = VStr (doc_id d)
     /\ selectedPost (run (handleSelectPost (doc_id d))
                          (run (postsSnapshot docs) st))
        = Some (with_id d)
     /\ selectedPost (run (postsSnapshot docs)
                          (run (handleSelectPost (doc_id d)) st))
        = Some (with_id d))
    /\ ((forall x, x ∈ docs -> doc_id x <> missing) ->
        selectedPost (run (handleSelectPost missing)
                          (run (postsSnapshot docs) st)) = None).
Proof.
  intros st docs d missing Hnd Hown.
  rewrite Forall_forall in Hown.
  assert (forall p x, x ∈ js_sort posts_cmp (map with_id docs) ->
                      id_is (Some p) x = true ->
                      exists e, e ∈ docs /\ x = with_id e /\ doc_id e = p)
    as Hlisted.
  { intros p x Hx Hp. rewrite (js_sort_perm posts_cmp) in Hx.
    apply list_elem_of_fmap in Hx as (e & -> & He).
    exists e. split; [done|]. split; [done|].
    unfold id_is in Hp. apply bool_decide_eq_true in Hp.
    rewrite listed_id in Hp by (by apply Hown). simpl in Hp. congruence. }
  split.
  - intros Hd.
    assert (List.find (id_is (Some (doc_id d)))
                      (js_sort posts_cmp (map with_id docs))
            = Some (with_id d)) as Hfind.
    { apply find_the_one.
      - rewrite (js_sort_perm posts_cmp). by apply list_elem_of_fmap_2.
      - unfold id_is. apply bool_decide_eq_true.
        by rewrite listed_id by (by apply Hown).
      - intros y Hy Hf. destruct (Hlisted _ _ Hy Hf) as (e & He & -> & Hid).
        f_equal. by apply (same_id_same_doc docs). }
    split; [by apply listed_id, Hown|]. by split.
  - intros Hmiss. apply find_no_one. intros y Hy.
    destruct (id_is (Some missing) y) eqn:Hf; [|done].
    destruct (Hlisted _ _ Hy Hf) as (e & He & _ & Hid).
    by destruct (Hmiss e He).
Qed.

Lemma selected_post_is_the_clicked_one_witness :
  selectedPost (run (handleSelectPost (doc_id second_post))
                    (run (postsSnapshot [first_post; second_post]) initial))
  = Some (with_id second_post).
Proof.
  assert (NoDup (map doc_id [first_post; second_post])) as Hnd.
  { apply (bool_decide_unpack _). vm_compute. exact I. }
  assert (Forall (fun x => doc_data x !! "id"%string = None)
                 [first_post; second_post]) as Hown.
  { apply (bool_decide_unpack _). vm_compute. exact I. }
  apply (proj1 (selected_post_is_the_clicked_one initial
                  [first_post; second_post] second_post "" Hnd Hown)).
  right. left.
Defined.

(** ** Blank input *)

Lemma string_length_ind (P : string -> Prop) :
  (forall s, (forall t, (String.length t < String.length s)%nat -> P t) -> P s) ->
  forall s, P s.
Proof.
  intros H s. remember (String.length s) as n eqn:Hn. revert s Hn.
  induction n as [n IH] using lt_wf_ind. intros s ->.
  apply H. intros t Ht. by apply (IH (String.length t)).
Qed.

Section StripFacts.
Variable p1 : Ascii.ascii -> bool.
Variable p2 : Ascii.ascii -> Ascii.ascii -> bool.
Variable p3 : Ascii.ascii -> Ascii.ascii -> Ascii.ascii -> bool.

Lemma strip_empty_iff s :
  strip p1 p2 p3 s = EmptyString <-> all_white p1 p2 p3 s = true.
Proof.
  induction s as [s IH] using string_length_ind.
  destruct s as [|c1 [|c2 [|c3 s3]]]; simpl; try done.
  - by destruct (p1 c1).
  - destruct (p1 c1).
    + apply (IH (String c2 EmptyString)). simpl; lia.
    + by destruct (p2 c1 c2).
  - destruct (p1 c1).
    + apply (IH (String c2 (String c3 s3))). simpl; lia.
    + destruct (p2 c1 c2).
      * apply (IH (String c3 s3)). simpl; lia.
      * destruct (p3 c1 c2 c3); [|done]. apply IH. simpl; lia.
Qed.

Lemma all_white_of_strip s :
  all_white p1 p2 p3 (strip p1 p2 p3 s) = all_white p1 p2 p3 s.
Proof.
  induction s as [s IH] using string_length_ind.
  destruct s as [|c1 [|c2 [|c3 s3]]]; try done.
  - simpl. destruct (p1 c1) eqn:H1; simpl; [done|]. by rewrite H1.
  - change (strip p1 p2 p3 (String c1 (String c2 EmptyString)))
      with (if p1 c1 then strip p1 p2 p3 (String c2 EmptyString)
            else if p2 c1 c2 then EmptyString
                 else String c1 (String c2 EmptyString)).
    change (all_white p1 p2 p3 (String c1 (String c2 EmptyString)))
      with (if p1 c1 then all_white p1 p2 p3 (String c2 EmptyString)
            else if p2 c1 c2 then true else false).
    destruct (p1 c1) eqn:H1.
    + apply (IH (String c2 EmptyString)). simpl; lia.
    + destruct (p2 c1 c2) eqn:H2; [done|]. simpl. by rewrite H1, H2.
  - change (strip p1 p2 p3 (String c1 (String c2 (String c3 s3))))
      with (if p1 c1 then strip p1 p2 p3 (String c2 (String c3 s3))
            else if p2 c1 c2 then strip p1 p2 p3 (String c3 s3)
                 else if p3 c1 c2 c3 then strip p1 p2 p3 s3
                      else String c1 (String c2 (String c3 s3))).
    change (all_white p1 p2 p3 (String c1 (String c2 (String c3 s3))))
      with (if p1 c1 then all_white p1 p2 p3 (String c2 (String c3 s3))
            else if p2 c1 c2 then all_white p1 p2 p3 (String c3 s3)
                 else if p3 c1 c2 c3 then all_white p1 p2 p3 s3 else false).
    destruct (p1 c1) eqn:H1.
    + apply (IH (String c2 (String c3 s3))). simpl; lia.
    + destruct (p2 c1 c2) eqn:H2.
      * apply (IH (String c3 s3)). simpl; lia.
      * destruct (p3 c1 c2 c3) eqn:H3.
        -- apply IH. simpl; lia.
        -- simpl. by rewrite H1, H2, H3.
Qed.

Lemma all_white_WhiteSpaces s : all_white p1 p2 p3 s = true -> WhiteSpaces p1 p2 p3 s.
Proof.
  induction s as [s IH] using string_length_ind.
  destruct s as [|c1 [|c2 [|c3 s3]]]; simpl.
  - constructor.
  - destruct (p1 c1) eqn:H1; [|discriminate]. intros _.
    apply WhiteSpaces_1; [done|constructor].
  - destruct (p1 c1) eqn:H1.
    + intros H. apply WhiteSpaces_1; [done|]. apply IH; [simpl; lia|done].
    + destruct (p2 c1 c2) eqn:H2; [|discriminate]. intros _.
      apply WhiteSpaces_2; [done|constructor].
  - destruct (p1 c1) eqn:H1.
    + intros H. apply WhiteSpaces_1; [done|]. apply IH; [simpl; lia|done].
    + destruct (p2 c1 c2) eqn:H2.
      * intros H. apply WhiteSpaces_2; [done|]. apply IH; [simpl; lia|done].
      * destruct (p3 c1 c2 c3) eqn:H3; [|discriminate].
        intros H. apply WhiteSpaces_3; [done|]. apply IH; [simpl; lia|done].
Qed.

Hypothesis p2_not_p1 : forall c1 c2, p2 c1 c2 = true -> p1 c1 = false.
Hypothesis p3_not_p1 : forall c1 c2 c3, p3 c1 c2 c3 = true -> p1 c1 = false.
Hypothesis p3_not_p2 : forall c1 c2 c3, p3 c1 c2 c3 = true -> p2 c1 c2 = false.

Lemma WhiteSpaces_all_white s : WhiteSpaces p1 p2 p3 s -> all_white p1 p2 p3 s = true.
Proof.
  induction 1 as [|c s H1 _ IH|c1 c2 s H2 _ IH|c1 c2 c3 s H3 _ IH].
  - done.
  - simpl. by rewrite H1.
  - simpl. by rewrite (p2_not_p1 _ _ H2), H2.
  - simpl. by rewrite (p3_not_p1 _ _ _ H3), (p3_not_p2 _ _ _ H3), H3.
Qed.
End StripFacts.

Lemma append_cons_s x (a b : string) : String x a +:+ b = String x (a +:+ b).
Proof. reflexivity. Qed.

Lemma append_nil_r_s (a : string) : a +:+ EmptyString = a.
Proof. induction a as [|x a IH]; [done|]. by rewrite append_cons_s, IH. Qed.

Lemma append_assoc_s (a b c : string) : (a +:+ b) +:+ c = a +:+ (b +:+ c).
Proof.
  induction a as [|x a IH]; [done|].
  by rewrite !append_cons_s, IH.
Qed.

Lemma rev_app_append s acc : String.rev_app s acc = String.rev s +:+ acc.
Proof.
  revert acc. induction s as [|c s IH]; intros acc; [done|].
  unfold String.rev. simpl. rewrite (IH (String c acc)), (IH (String c EmptyString)).
  by rewrite append_assoc_s.
Qed.

Lemma rev_cons_s c s : String.rev (String c s) = String.rev s +:+ String c EmptyString.
Proof. unfold String.rev at 1. simpl. apply rev_app_append. Qed.

Lemma rev_append_s a b : String.rev (a +:+ b) = String.rev b +:+ String.rev a.
Proof.
  induction a as [|c a IH].
  - simpl. by rewrite append_nil_r_s.
  - by rewrite append_cons_s, !rev_cons_s, IH, append_assoc_s.
Qed.

Lemma rev_involutive_s s : String.rev (String.rev s) = s.
Proof.
  induction s as [|c s IH]; [done|].
  by rewrite rev_cons_s, rev_append_s, IH.
Qed.

Lemma WhiteSpaces_append p1 p2 p3 a b :
  WhiteSpaces p1 p2 p3 a -> WhiteSpaces p1 p2 p3 b -> WhiteSpaces p1 p2 p3 (a +:+ b).
Proof.
  intros Ha Hb. induction Ha; rewrite ?append_cons_s; [done| | |];
    by constructor.
Qed.

Lemma WhiteSpaces_rev p1 p2 p3 q2 q3 s :
  (forall c1 c2, q2 c2 c1 = p2 c1 c2) ->
  (forall c1 c2 c3, q3 c3 c2 c1 = p3 c1 c2 c3) ->
  WhiteSpaces p1 p2 p3 s -> WhiteSpaces p1 q2 q3 (String.rev s).
Proof.
  intros Hq2 Hq3. induction 1 as [|c s H1 _ IH|c1 c2 s H2 _ IH|c1 c2 c3 s H3 _ IH].
  - constructor.
  - rewrite rev_cons_s. apply WhiteSpaces_append; [done|]. apply WhiteSpaces_1; [done|constructor].
  - rewrite !rev_cons_s, append_assoc_s. apply WhiteSpaces_append; [done|].
    rewrite append_cons_s. apply WhiteSpaces_2; [by rewrite Hq2|constructor].
  - rewrite !rev_cons_s, !append_assoc_s. apply WhiteSpaces_append; [done|].
    rewrite !append_cons_s. apply WhiteSpaces_3; [by rewrite Hq3|constructor].
Qed.

Lemma is_white_space2_lead c1 c2 :
  is_white_space2 c1 c2 = true ->
  Ascii.nat_of_ascii c1 = 194%nat /\ Ascii.nat_of_ascii c2 = 160%nat.
Proof.
  unfold is_white_space2. intros H%bool_decide_eq_true. by inversion H.
Qed.

Lemma is_white_space3_lead c1 c2 c3 :
  is_white_space3 c1 c2 c3 = true ->
  Ascii.nat_of_ascii c1 ∈ [225; 226; 227; 239]%nat
  /\ Ascii.nat_of_ascii c3 ∈ [128; 129; 130; 131; 132; 133; 134; 135; 136; 137;
                              138; 168; 169; 175; 159; 191]%nat.
Proof.
  unfold is_white_space3. intros H%bool_decide_eq_true.
  repeat (apply elem_of_cons in H as [H|H];
          [injection H as -> _ ->; split; apply (bool_decide_unpack _); by vm_compute|]).
  by apply elem_of_nil in H.
Qed.

Lemma white_space_forward :
  (forall c1 c2, is_white_space2 c1 c2 = true -> is_white_space c1 = false)
  /\ (forall c1 c2 c3, is_white_space3 c1 c2 c3 = true -> is_white_space c1 = false)
  /\ (forall c1 c2 c3,
        is_white_space3 c1 c2 c3 = true -> is_white_space2 c1 c2 = false).
Proof.
  split; [|split].
  - intros c1 c2 [H1 _]%is_white_space2_lead. unfold is_white_space.
    rewrite H1. by vm_compute.
  - intros c1 c2 c3 [H1 _]%is_white_space3_lead. unfold is_white_space.
    repeat (apply elem_of_cons in H1 as [->|H1]; [by vm_compute|]).
    by apply elem_of_nil in H1.
  - intros c1 c2 c3 [H1 _]%is_white_space3_lead. unfold is_white_space2.
    apply bool_decide_eq_false. intros Heq. inversion Heq as [[H194 H160]].
    rewrite H194 in H1.
    repeat (apply elem_of_cons in H1 as [H1|H1]; [discriminate|]).
    by apply elem_of_nil in H1.
Qed.

Lemma white_space_backward :
  (forall c1 c2, is_white_space2 c2 c1 = true -> is_white_space c1 = false)
  /\ (forall c1 c2 c3, is_white_space3 c3 c2 c1 = true -> is_white_space c1 = false)
  /\ (forall c1 c2 c3,
        is_white_space3 c3 c2 c1 = true -> is_white_space2 c2 c1 = false).
Proof.
  split; [|split].
  - intros c1 c2 [_ H1]%is_white_space2_lead. unfold is_white_space.
    rewrite H1. by vm_compute.
  - intros c1 c2 c3 [_ H1]%is_white_space3_lead. unfold is_white_space.
    repeat (apply elem_of_cons in H1 as [->|H1]; [by vm_compute|]).
    by apply elem_of_nil in H1.
  - intros c1 c2 c3 [_ H1]%is_white_space3_lead. unfold is_white_space2.
    apply bool_decide_eq_false. intros Heq. inversion Heq as [[H194 H160]].
    rewrite H160 in H1.
    repeat (apply elem_of_cons in H1 as [H1|H1]; [discriminate|]).
    by apply elem_of_nil in H1.
Qed.

Lemma trimStart_empty_iff s : trimStart s = EmptyString <-> blank s = true.
Proof. apply strip_empty_iff. Qed.

Lemma blank_trimStart s : blank (trimStart s) = blank s.
Proof. apply all_white_of_strip. Qed.

Lemma blank_reversed s :
  all_white is_white_space (fun c1 c2 => is_white_space2 c2 c1)
            (fun c1 c2 c3 => is_white_space3 c3 c2 c1) (String.rev s) = true ->
  blank s = true.
Proof.
  intros H. destruct white_space_forward as (F1 & F2 & F3).
  apply WhiteSpaces_all_white; [done|done|done|].
  apply all_white_WhiteSpaces in H.
  rewrite <- (rev_involutive_s s).
  by apply (WhiteSpaces_rev is_white_space (fun c1 c2 => is_white_space2 c2 c1)
              (fun c1 c2 c3 => is_white_space3 c3 c2 c1)).
Qed.

Lemma rev_empty_s s : String.rev s = EmptyString -> s = EmptyString.
Proof.
  intros H. apply (f_equal String.rev) in H. by rewrite rev_involutive_s in H.
Qed.

(** [s.trim()] is truthy exactly when [s] is not made of white space
    only. *)
(** [s.trim()] is truthy exactly when [s] has a character that is not
    white space. *)
Lemma truthy_trim s : truthy_str (trim s) = negb (blank s).
Proof.
  destruct (blank s) eqn:Hb; simpl.
  - unfold trim. apply trimStart_empty_iff in Hb. by rewrite Hb.
  - destruct (trim s) eqn:Ht; [|done]. exfalso.
    unfold trim in Ht. apply rev_empty_s in Ht.
    apply strip_empty_iff, blank_reversed in Ht.
    rewrite blank_trimStart in Ht. congruence.
Qed.

(** White space of one, two and three bytes is trimmed from both ends,
    and the text between is kept as it is. *)
Example trim_examples :
  trim (String (Ascii.ascii_of_nat 9) " a b " +:+ em_space) = "a b"%string
  /\ trim (em_space +:+ String (Ascii.ascii_of_nat 194)
                          (String (Ascii.ascii_of_nat 160) " ")) = ""%string
  /\ blank em_space = true
  /\ blank (em_space +:+ "x") = false
  /\ blank_title_draft <> em_space_title_draft
  /\ blank (ProfileView.postTitle blank_title_draft) = true.
Proof. repeat split; by vm_compute. Qed.

(** X10: a form starts a write exactly when its text inputs are not
    blank and the data it needs is there: the profile form needs a user;
    the post form a user and a loaded profile; the comment form a user, a
    loaded profile and a selected post.  A submit with a blank input does
    nothing at all and leaves the form as typed.  The comment form is
    emptied whenever its text is not blank and user and profile are
    there, also when no post is selected and nothing is written. *)
Theorem forms_write_iff_filled :
  forall (st : AppState) (r : result),
    (forall f,
        firebase_calls (ProfileView.handleProfileUpdate st f r).2 <> []
        <-> blank (ProfileView.displayName f) = false /\ is_Some (user st))
    /\ (forall f,
          firebase_calls (ProfileView.handlePostCreate st f r).2 <> []
          <-> blank (ProfileView.postTitle f) = false
              /\ blank (ProfileView.postContent f) = false
              /\ is_Some (user st) /\ is_Some (userData st))
    /\ (forall f,
          firebase_calls (PostDetailView.handleSubmit st f r).2 <> []
          <-> blank (PostDetailView.commentText f) = false
              /\ is_Some (user st) /\ is_Some (userData st)
              /\ truthy (selectedPostId st) = true)
    /\ (forall f,
          blank (ProfileView.displayName f) = true ->
          ProfileView.handleProfileUpdate st f r = (f, []))
    /\ (forall f,
          blank (ProfileView.postTitle f) = true
          \/ blank (ProfileView.postContent f) = true ->
          ProfileView.handlePostCreate st f r = (f, []))
    /\ (forall f,
          blank (PostDetailView.commentText f) = true ->
          PostDetailView.handleSubmit st f r = (f, []))
    /\ (forall f,
          (PostDetailView.handleSubmit st f r).1
          = if negb (blank (PostDetailView.commentText f))
               && bool_decide (is_Some (user st))
               && bool_decide (is_Some (userData st))
            then {| PostDetailView.commentText := "" |}
            else f).
Proof.
  intros st r.
  split; [|split; [|split; [|split; [|split; [|split]]]]].
  - intros f. unfold ProfileView.handleProfileUpdate, handleUpdateProfile.
    rewrite truthy_trim.
    destruct (blank (ProfileView.displayName f)), (user st), r; simpl;
      split; try done; try (by intros [? [? ?]]); by eauto.
  - intros f. unfold ProfileView.handlePostCreate.
    rewrite !truthy_trim.
    destruct (blank (ProfileView.postTitle f)),
      (blank (ProfileView.postContent f)), (user st), (userData st), r; simpl;
      split; try done;
      try (by intros (? & ? & [? ?] & [? ?])); by eauto 10.
  - intros f. unfold PostDetailView.handleSubmit, handleAddComment.
    rewrite truthy_trim.
    destruct (blank (PostDetailView.commentText f)), (user st), (userData st),
      (selectedPostId st) as [[|]|], r; simpl;
      split; try done;
      try (by intros (? & [? ?] & [? ?] & ?)); by eauto 10.
  - intros f Hb. unfold ProfileView.handleProfileUpdate.
    by rewrite truthy_trim, Hb.
  - intros f Hb. unfold ProfileView.handlePostCreate.
    rewrite !truthy_trim. destruct Hb as [-> | ->]; simpl; [done|].
    by rewrite andb_false_r.
  - intros f Hb. unfold PostDetailView.handleSubmit.
    by rewrite truthy_trim, Hb.
  - intros f. unfold PostDetailView.handleSubmit. rewrite truthy_trim.
    destruct (blank (PostDetailView.commentText f)), (user st), (userData st);
      simpl; try done.
    all: rewrite ?(bool_decide_eq_true_2 (is_Some (Some _))) by eauto.
    all: rewrite ?(bool_decide_eq_false_2 (is_Some None)) by (by intros [? ?]).
    all: try done.
    all: by rewrite ?andb_false_r.
Qed.

Lemma forms_write_iff_filled_witness :
  ProfileView.handlePostCreate alice_on_profile em_space_title_draft Resolved
  = (em_space_title_draft, []).
Proof.
  apply (forms_write_iff_filled alice_on_profile Resolved).
  left. reflexivity.
Defined.

(** X11: what a filled form writes, whichever way the write settles:
    one call, with the text exactly as typed (white space around it
    kept), the uid of the current user as author and the [displayName]
    field of the loaded profile as author name; the profile form writes
    the name as typed to the document of the current user, merging,
    whether a profile is loaded or not. *)
Theorem forms_write_as_typed :
  forall (st : AppState) (u : User) (r : result),
    user st = Some u ->
    (forall f,
        blank (ProfileView.displayName f) = false ->
        firebase_calls (ProfileView.handleProfileUpdate st f r).2
        = [SetDoc (UserDoc (uid u))
                  {[ "displayName"%string := VStr (ProfileView.displayName f) ]}
                  true])
    /\ (forall f d,
          userData st = Some d ->
          blank (ProfileView.postTitle f) = false ->
          blank (ProfileView.postContent f) = false ->
          firebase_calls (ProfileView.handlePostCreate st f r).2
          = [AddDoc PostsCollection
                    (post_to_add (ProfileView.postTitle f)
                                 (ProfileView.postContent f) (uid u)
                                 (get d "displayName"))])
    /\ (forall f d p,
          userData st = Some d ->
          selectedPostId st = Some p ->
          truthy_str p = true ->
          blank (PostDetailView.commentText f) = false ->
          firebase_calls (PostDetailView.handleSubmit st f r).2
          = [AddDoc (CommentsCollection p)
                    (comment_to_add (PostDetailView.commentText f) (uid u)
                                    (get d "displayName"))]).
Proof.
  intros st u r Hu. split; [|split].
  - intros f Hb. unfold ProfileView.handleProfileUpdate, handleUpdateProfile.
    rewrite truthy_trim, Hb, Hu. by destruct r.
  - intros f d Hd Ht Hc. unfold ProfileView.handlePostCreate.
    rewrite !truthy_trim, Ht, Hc, Hu, Hd. by destruct r.
  - intros f d p Hd Hp Htruthy Hb.
    unfold PostDetailView.handleSubmit, handleAddComment.
    rewrite truthy_trim, Hb, Hu, Hd, Hp, Htruthy. by destruct r.
Qed.

Lemma forms_write_as_typed_witness :
  firebase_calls (ProfileView.handlePostCreate alice_on_profile padded_draft
                    (Rejected "offline")).2
  = [AddDoc PostsCollection (post_to_add " T " "C" "u1" (VStr "Alice"))].
Proof.
  apply (proj1 (proj2 (forms_write_as_typed alice_on_profile alice
                         (Rejected "offline") eq_refl))
           padded_draft alice_profile);
    reflexivity.
Defined.

(** ** From a write to the list *)

Lemma stored_agrees docId data createdAt k :
  k <> "createdAt"%string ->
  doc_data (stored docId data createdAt) !! k = data !! k.
Proof. intros Hk. unfold stored. simpl. by rewrite lookup_insert_ne. Qed.

(** X12: the object [handleCreatePost] appends is made of [title],
    [content], [authorId], [authorName] and [createdAt] and has no field
    [id]; so a document of a snapshot that holds what was appended,
    whatever it holds under [createdAt], is listed with the id of the
    document under [id] and with the four fields as written.  The same
    holds for [handleAddComment] and [text], [authorId],
    [authorName]. *)
Theorem appended_document_is_listed_under_store_id :
  forall (d : QueryDocumentSnapshot) (st : AppState)
         (title content text authorId postId : string) (authorName : value)
         (r : result),
    firebase_calls (handleCreatePost title content authorId authorName r)
    = [AddDoc PostsCollection (post_to_add title content authorId authorName)]
    /\ (selectedPostId st = Some postId -> truthy_str postId = true ->
        firebase_calls (handleAddComment st text authorId authorName r)
        = [AddDoc (CommentsCollection postId)
                  (comment_to_add text authorId authorName)])
    /\ ((forall k, k <> "createdAt"%string ->
                   doc_data d !! k
                   = post_to_add title content authorId authorName !! k) ->
        with_id d !! "id"%string = Some (VStr (doc_id d))
        /\ with_id d !! "title"%string = Some (VStr title)
        /\ with_id d !! "content"%string = Some (VStr content)
        /\ with_id d !! "authorId"%string = Some (VStr authorId)
        /\ with_id d !! "authorName"%string = Some authorName)
    /\ ((forall k, k <> "createdAt"%string ->
                   doc_data d !! k
                   = comment_to_add text authorId authorName !! k) ->
        with_id d !! "id"%string = Some (VStr (doc_id d))
        /\ with_id d !! "text"%string = Some (VStr text)
        /\ with_id d !! "authorId"%string = Some (VStr authorId)
        /\ with_id d !! "authorName"%string = Some authorName).
Proof.
  intros d st title content text authorId postId authorName r.
  split; [by destruct r|].
  split.
  { intros Hs Ht. unfold handleAddComment. rewrite Hs, Ht. by destruct r. }
  destruct (post_fields_lookup title content authorId authorName)
    as (_ & Hp0 & Hp1 & Hp2 & Hp3 & Hp4).
  destruct (comment_fields_lookup text authorId authorName)
    as (_ & Hc0 & Hc1 & Hc2 & Hc3).
  split.
  - intros Hd. rewrite !with_id_lookup, !Hd by done.
    unfold post_to_add. rewrite Hp0, Hp1, Hp2, Hp3, Hp4. done.
  - intros Hd. rewrite !with_id_lookup, !Hd by done.
    unfold comment_to_add. rewrite Hc0, Hc1, Hc2, Hc3. done.
Qed.

Lemma appended_document_is_listed_under_store_id_witness :
  with_id (stored "p9" (post_to_add "T" "C" "u1" (VStr "Alice"))
                  (Some {| seconds := 30; nanoseconds := 0 |})) !! "id"%string
  = Some (VStr "p9")
  /\ with_id (stored "p9" (post_to_add "T" "C" "u1" (VStr "Alice"))
                     (Some {| seconds := 30; nanoseconds := 0 |})) !! "title"%string
     = Some (VStr "T").
Proof.
  destruct (proj1 (proj2 (proj2
              (appended_document_is_listed_under_store_id
                 (stored "p9" (post_to_add "T" "C" "u1" (VStr "Alice"))
                         (Some {| seconds := 30; nanoseconds := 0 |}))
                 initial "T" "C" "" "u1" "" (VStr "Alice") Resolved)))
              (fun k Hk => stored_agrees _ _ _ k Hk))
    as (Hid & Htitle & _).
  split; [exact Hid|exact Htitle].
Defined.

(** ** Sign-in with the provider *)

(** X13: [handleSignIn] opens the popup after switching loading on and
    clearing the error, and ends with loading off on every path.  When
    the popup fails nothing is written to the store and the message is
    the error; when it succeeds exactly one merge write goes to the
    document of the provider's user, with the two fields [displayName]
    and [email] ([null] for one the provider does not give), and a
    failure of that write is the error.  In no case does the handler
    itself change the user, the profile, the view, the selection or the
    lists. *)
Theorem sign_in_writes_profile_or_reports :
  forall (st : AppState) (popup_r : popup_result) (write_r : result),
    let acts := handleSignIn popup_r write_r in
    let st' := run (actions_of acts) st in
    (exists rest,
        acts = [Then (SetLoading true); Then (SetError None);
                SignInWithPopup popup_r] ++ rest)
    /\ loading st' = false
    /\ error st' = match popup_r, write_r with
                   | PopupRejected message, _ => Some message
                   | PopupResolved _, Rejected message => Some message
                   | PopupResolved _, Resolved => None
                   end
    /\ match popup_r with
       | PopupRejected _ => firebase_calls (actions_of acts) = []
       | PopupResolved u =>
           exists data,
             firebase_calls (actions_of acts)
             = [SetDoc (UserDoc (uid u)) data true]
             /\ data !! "displayName"%string = Some (js_string (displayName u))
             /\ data !! "email"%string = Some (js_string (email u))
             /\ dom data = {[ "displayName"%string; "email"%string ]}
       end
    /\ user st' = user st
    /\ userData st' = userData st
    /\ isAuthReady st' = isAuthReady st
    /\ view st' = view st
    /\ selectedPostId st' = selectedPostId st
    /\ posts st' = posts st
    /\ comments st' = comments st.
Proof.
  intros st popup_r write_r acts st'.
  split; [by eexists|].
  destruct popup_r as [u|message], write_r as [|message']; simpl;
    repeat split; try done.
  all: eexists; split; [done|].
  all: split; [by simplify_map_eq|].
  all: split; [by simplify_map_eq|].
  all: by rewrite dom_insert_L, dom_singleton_L.
Qed.

(** ** Paths *)

Lemma append_nil_s (b : string) : EmptyString +:+ b = b.
Proof. reflexivity. Qed.

Lemma append_length_s (a b : string) :
  String.length (a +:+ b) = (String.length a + String.length b)%nat.
Proof.
  induction a as [|x a IH]; [done|].
  rewrite append_cons_s. simpl. by rewrite IH.
Qed.

Lemma append_inv_head_s (a b c : string) : a +:+ b = a +:+ c -> b = c.
Proof.
  induction a as [|x a IH]; [done|].
  rewrite !append_cons_s. intros H. apply IH. by inversion H.
Qed.

Lemma append_inv_tail_s (a b t : string) : a +:+ t = b +:+ t -> a = b.
Proof.
  revert b. induction a as [|x a IH]; intros [|y b] H.
  - done.
  - apply (f_equal String.length) in H.
    rewrite append_cons_s, append_nil_s in H. simpl in H.
    rewrite append_length_s in H. lia.
  - apply (f_equal String.length) in H.
    rewrite append_cons_s, append_nil_s in H. simpl in H.
    rewrite append_length_s in H. lia.
  - rewrite !append_cons_s in H. inversion H; subst. f_equal. by apply IH.
Qed.

Ltac path_normal :=
  unfold path_of, usersCollectionPath, postsCollectionPath,
    getCommentsCollectionPath;
  rewrite ?append_assoc_s.

(** X14: the paths of two different references are different, whatever
    the application id, the uids and the post ids: a listener or a write
    on one reference never lands on another.  The comments of a post live
    under the posts collection, at [posts/<postId>/comments]. *)
Theorem paths_tell_references_apart :
  forall (cfg : Config) (r1 r2 : Ref) (postId : string),
    (r1 <> r2 -> path_of cfg r1 <> path_of cfg r2)
    /\ getCommentsCollectionPath cfg postId
       = postsCollectionPath cfg +:+ "/" +:+ postId +:+ "/comments".
Proof.
  intros cfg r1 r2 postId. split.
  - intros Hne Heq. apply Hne. revert Heq.
    destruct r1 as [u1| |p1], r2 as [u2| |p2]; path_normal;
      intros H; do 2 apply append_inv_head_s in H;
      rewrite ?append_cons_s, ?append_nil_s in H; try discriminate.
    + by inversion H.
    + done.
    + inversion H as [H']. apply append_inv_tail_s in H'. by subst.
  - by path_normal.
Qed.

Lemma paths_tell_references_apart_witness :
  path_of sample_config (CommentsCollection "p1")
  <> path_of sample_config PostsCollection.
Proof.
  apply (proj1 (paths_tell_references_apart sample_config
                  (CommentsCollection "p1") PostsCollection "p1")).
  discriminate.
Defined.

(** ** The three listeners over the life of the component *)

Lemma quiet_for_fold mine acts s :
  Forall (quiet_for mine) acts -> foldl (listener_step mine) s acts = s.
Proof.
  induction 1 as [|a acts Ha _ IH]; simpl; [done|].
  rewrite <- IH at 2. f_equal.
  destruct a as [| | | | | | | | | |[]|]; simpl in *; try done; by rewrite Ha.
Qed.

Lemma keeps_deps_run acts st :
  Forall keeps_deps acts ->
  user (run acts st) = user st
  /\ isAuthReady (run acts st) = isAuthReady st
  /\ selectedPostId (run acts st) = selectedPostId st.
Proof.
  intros Hall. revert st.
  induction Hall as [|a acts Ha _ IH]; intros st; [done|].
  simpl. destruct (IH (apply st a)) as (-> & -> & ->).
  by destruct a.
Qed.

Lemma handle_quiet_for mine cfg c ev : Forall (quiet_for mine) (handle cfg c ev).
Proof.
  destruct ev; simpl; unfold_handlers; handler_cases; repeat constructor.
Qed.

Lemma cancel_quiet_for mine s :
  (forall r, s = On r -> mine r = false) -> Forall (quiet_for mine) (cancel s).
Proof. destruct s; simpl; repeat constructor. simpl. eauto. Qed.

Lemma cancel_keeps_deps s : Forall keeps_deps (cancel s).
Proof. destruct s; repeat constructor. Qed.

Lemma cancel_fold mine s :
  s <> Misused -> (forall r, s = On r -> mine r = true) ->
  foldl (listener_step mine) s (cancel s) = Off.
Proof.
  destruct s as [|r|]; simpl; [done| |done].
  intros _ Hm. rewrite (Hm r eq_refl). by rewrite decide_True.
Qed.

Lemma userDataEffect_facts st :
  let e := userDataEffect (user st) (isAuthReady st) in
  cleanup e = cancel (wanted_user st)
  /\ foldl (listener_step is_user_doc) Off (body e) = wanted_user st
  /\ Forall (quiet_for is_posts) (body e)
  /\ Forall (quiet_for is_comments) (body e)
  /\ Forall keeps_deps (body e).
Proof.
  unfold userDataEffect, wanted_user.
  destruct (user st), (isAuthReady st); simpl; repeat split;
    repeat constructor.
Qed.

Lemma postsEffect_facts st :
  let e := postsEffect (isAuthReady st) in
  cleanup e = cancel (wanted_posts st)
  /\ foldl (listener_step is_posts) Off (body e) = wanted_posts st
  /\ Forall (quiet_for is_user_doc) (body e)
  /\ Forall (quiet_for is_comments) (body e)
  /\ Forall keeps_deps (body e).
Proof.
  unfold postsEffect, wanted_posts.
  destruct (isAuthReady st); simpl; repeat split; repeat constructor.
Qed.

Lemma commentsEffect_facts st :
  let e := commentsEffect (isAuthReady st) (selectedPostId st) in
  cleanup e = cancel (wanted_comments st)
  /\ foldl (listener_step is_comments) Off (body e) = wanted_comments st
  /\ Forall (quiet_for is_user_doc) (body e)
  /\ Forall (quiet_for is_posts) (body e)
  /\ Forall keeps_deps (body e).
Proof.
  unfold commentsEffect, wanted_comments.
  destruct (isAuthReady st), (selectedPostId st) as [[|]|]; simpl;
    repeat split; repeat constructor.
Qed.

Lemma wanted_user_shape st :
  wanted_user st <> Misused
  /\ (forall r, wanted_user st = On r -> is_user_doc r = true)
  /\ (forall r, wanted_user st = On r -> is_posts r = false)
  /\ (forall r, wanted_user st = On r -> is_comments r = false).
Proof.
  unfold wanted_user. destruct (user st), (isAuthReady st);
    repeat split; try done; by intros r [= <-].
Qed.

Lemma wanted_posts_shape st :
  wanted_posts st <> Misused
  /\ (forall r, wanted_posts st = On r -> is_posts r = true)
  /\ (forall r, wanted_posts st = On r -> is_user_doc r = false)
  /\ (forall r, wanted_posts st = On r -> is_comments r = false).
Proof.
  unfold wanted_posts. destruct (isAuthReady st);
    repeat split; try done; by intros r [= <-].
Qed.

Lemma wanted_comments_shape st :
  wanted_comments st <> Misused
  /\ (forall r, wanted_comments st = On r -> is_comments r = true)
  /\ (forall r, wanted_comments st = On r -> is_user_doc r = false)
  /\ (forall r, wanted_comments st = On r -> is_posts r = false).
Proof.
  unfold wanted_comments.
  destruct (selectedPostId st) as [[|]|], (isAuthReady st);
    repeat split; try done; by intros r [= <-].
Qed.

Lemma wanted_same st st' :
  user st' = user st -> isAuthReady st' = isAuthReady st ->
  selectedPostId st' = selectedPostId st ->
  wanted_user st' = wanted_user st
  /\ wanted_posts st' = wanted_posts st
  /\ wanted_comments st' = wanted_comments st.
Proof.
  intros Hu Hr Hs. unfold wanted_user, wanted_posts, wanted_comments.
  by rewrite Hu, Hr, Hs.
Qed.

Lemma if_quiet mine (b : bool) acts :
  Forall (quiet_for mine) acts ->
  Forall (quiet_for mine) (if b then [] else acts).
Proof. by destruct b. Qed.

Lemma if_keeps_deps (b : bool) acts :
  Forall keeps_deps acts -> Forall keeps_deps (if b then [] else acts).
Proof. by destruct b. Qed.

(** One listener through a commit: the actions before, between and
    after its own cleanup and effect are quiet for it. *)
Lemma listener_round mine (old new : Listener) (same : bool)
    (before cl between bd after : list action) :
  Forall (quiet_for mine) before ->
  Forall (quiet_for mine) between ->
  Forall (quiet_for mine) after ->
  (same = true -> old = new) ->
  (same = false -> foldl (listener_step mine) old cl = Off) ->
  (same = false -> foldl (listener_step mine) Off bd = new) ->
  foldl (listener_step mine) old
        (before ++ (if same then [] else cl) ++ between
         ++ (if same then [] else bd) ++ after) = new.
Proof.
  intros Hb Hm Ha Hsame Hcl Hbd.
  rewrite !foldl_app, (quiet_for_fold mine before) by done.
  destruct same; simpl.
  - rewrite (quiet_for_fold mine between), (quiet_for_fold mine after) by done.
    by apply Hsame.
  - rewrite Hcl by done.
    rewrite (quiet_for_fold mine between) by done.
    rewrite Hbd by done. by apply quiet_for_fold.
Qed.

Lemma commit_all_settled m st0 :
  user_deps m = (user st0, isAuthReady st0) ->
  posts_deps m = isAuthReady st0 ->
  comments_deps (core m) = (isAuthReady st0, selectedPostId st0) ->
  listener_of is_user_doc (log (core m)) = wanted_user st0 ->
  listener_of is_posts (log (core m)) = wanted_posts st0 ->
  listener_of is_comments (log (core m)) = wanted_comments st0 ->
  user_cleanup m = cancel (wanted_user st0) ->
  posts_cleanup m = cancel (wanted_posts st0) ->
  comments_cleanup (core m) = cancel (wanted_comments st0) ->
  settled_all (commit_all m).
Proof.
  intros Hud Hpd Hcd Hlu Hlp Hlc Hcu Hcp Hcc.
  set (st := state (core m)).
  destruct (userDataEffect_facts st) as (Heu1 & Heu2 & Heu3 & Heu4 & Heu5).
  destruct (postsEffect_facts st) as (Hep1 & Hep2 & Hep3 & Hep4 & Hep5).
  destruct (commentsEffect_facts st) as (Hec1 & Hec2 & Hec3 & Hec4 & Hec5).
  destruct (wanted_user_shape st0) as (Hwu1 & Hwu2 & Hwu3 & Hwu4).
  destruct (wanted_posts_shape st0) as (Hwp1 & Hwp2 & Hwp3 & Hwp4).
  destruct (wanted_comments_shape st0) as (Hwc1 & Hwc2 & Hwc3 & Hwc4).
  set (u_same := bool_decide ((user st, isAuthReady st) = user_deps m)).
  set (p_same := bool_decide (isAuthReady st = posts_deps m)).
  set (c_same := bool_decide ((isAuthReady st, selectedPostId st)
                              = comments_deps (core m))).
  set (acts :=
         (if u_same then [] else user_cleanup m)
         ++ (if p_same then [] else posts_cleanup m)
         ++ (if c_same then [] else comments_cleanup (core m))
         ++ (if u_same then []
             else body (userDataEffect (user st) (isAuthReady st)))
         ++ (if p_same then [] else body (postsEffect (isAuthReady st)))
         ++ (if c_same then []
             else body (commentsEffect (isAuthReady st) (selectedPostId st)))).
  assert (Forall keeps_deps acts) as Hkeep.
  { unfold acts. rewrite Hcu, Hcp, Hcc.
    repeat (apply Forall_app; split); apply if_keeps_deps;
      try apply cancel_keeps_deps; done. }
  destruct (keeps_deps_run acts st Hkeep) as (Hu & Hr & Hs).
  destruct (wanted_same st (run acts st) Hu Hr Hs) as (Hwu & Hwp & Hwc).
  assert (u_same = true -> wanted_user st0 = wanted_user st) as Husame.
  { unfold u_same. rewrite Hud. intros H%bool_decide_eq_true.
    inversion H as [[H1 H2]]. unfold wanted_user. by rewrite H1, H2. }
  assert (p_same = true -> wanted_posts st0 = wanted_posts st) as Hpsame.
  { unfold p_same. rewrite Hpd. intros H%bool_decide_eq_true.
    unfold wanted_posts. by rewrite H. }
  assert (c_same = true -> wanted_comments st0 = wanted_comments st) as Hcsame.
  { unfold c_same. rewrite Hcd. intros H%bool_decide_eq_true.
    inversion H as [[H1 H2]]. unfold wanted_comments. by rewrite H1, H2. }
  unfold settled_all, commit_all.
  cbn [core state comments_deps comments_cleanup log user_deps user_cleanup
       posts_deps posts_cleanup].
  fold st. fold u_same p_same c_same. fold acts.
  rewrite Hu, Hr, Hs, Hwu, Hwp, Hwc.
  split; [done|]. split; [done|]. split; [done|].
  unfold listener_of. rewrite !foldl_app.
  fold (listener_of is_user_doc (log (core m))).
  fold (listener_of is_posts (log (core m))).
  fold (listener_of is_comments (log (core m))).
  rewrite Hlu, Hlp, Hlc.
  split; [|split; [|split; [|split; [|split]]]].
  - assert (acts
            = [] ++ (if u_same then [] else cancel (wanted_user st0))
              ++ ((if p_same then [] else cancel (wanted_posts st0))
                  ++ (if c_same then [] else cancel (wanted_comments st0)))
              ++ (if u_same then []
                  else body (userDataEffect (user st) (isAuthReady st)))
              ++ ((if p_same then [] else body (postsEffect (isAuthReady st)))
                  ++ (if c_same then []
                      else body (commentsEffect (isAuthReady st)
                                                (selectedPostId st)))))
      as ->.
    { unfold acts. rewrite Hcu, Hcp, Hcc. simpl. by rewrite <- !app_assoc. }
    apply listener_round.
    + constructor.
    + apply Forall_app; split; apply if_quiet; by apply cancel_quiet_for.
    + apply Forall_app; split; by apply if_quiet.
    + done.
    + intros _. by apply cancel_fold.
    + done.
  - assert (acts
            = (if u_same then [] else cancel (wanted_user st0))
              ++ (if p_same then [] else cancel (wanted_posts st0))
              ++ ((if c_same then [] else cancel (wanted_comments st0))
                  ++ (if u_same then []
                      else body (userDataEffect (user st) (isAuthReady st))))
              ++ (if p_same then [] else body (postsEffect (isAuthReady st)))
              ++ (if c_same then []
                  else body (commentsEffect (isAuthReady st)
                                            (selectedPostId st))))
      as ->.
    { unfold acts. rewrite Hcu, Hcp, Hcc. by rewrite <- !app_assoc. }
    apply listener_round.
    + apply if_quiet. by apply cancel_quiet_for.
    + apply Forall_app; split; apply if_quiet; [by apply cancel_quiet_for|done].
    + by apply if_quiet.
    + done.
    + intros _. by apply cancel_fold.
    + done.
  - assert (acts
            = ((if u_same then [] else cancel (wanted_user st0))
               ++ (if p_same then [] else cancel (wanted_posts st0)))
              ++ (if c_same then [] else cancel (wanted_comments st0))
              ++ ((if u_same then []
                   else body (userDataEffect (user st) (isAuthReady st)))
                  ++ (if p_same then []
                      else body (postsEffect (isAuthReady st))))
              ++ (if c_same then []
                  else body (commentsEffect (isAuthReady st)
                                            (selectedPostId st)))
              ++ [])
      as ->.
    { unfold acts. rewrite Hcu, Hcp, Hcc.
      by rewrite <- !app_assoc, app_nil_r. }
    apply listener_round.
    + apply Forall_app; split; apply if_quiet; by apply cancel_quiet_for.
    + apply Forall_app; split; by apply if_quiet.
    + constructor.
    + done.
    + intros _. by apply cancel_fold.
    + done.
  - destruct u_same; [|done]. rewrite Hcu. f_equal. by apply Husame.
  - destruct p_same; [|done]. rewrite Hcp. f_equal. by apply Hpsame.
  - destruct c_same; [|done]. rewrite Hcc. f_equal. by apply Hcsame.
Qed.

Lemma step_all_handled cfg m ev :
  step_all cfg m ev = commit_all (handled_all cfg m ev).
Proof. done. Qed.

Lemma step_all_settled cfg m ev : settled_all m -> settled_all (step_all cfg m ev).
Proof.
  intros (Hud & Hpd & Hcd & Hlu & Hlp & Hlc & Hcu & Hcp & Hcc).
  rewrite step_all_handled.
  apply (commit_all_settled _ (state (core m))); try done.
  all: unfold handled_all, handled; cbn [core log].
  all: unfold listener_of; rewrite foldl_app.
  all: rewrite quiet_for_fold by apply handle_quiet_for; done.
Qed.

Lemma mount_all_settled : settled_all mount_all.
Proof. by repeat split. Qed.

Lemma steps_all_snoc cfg evs ev :
  steps_all cfg (evs ++ [ev]) = step_all cfg (steps_all cfg evs) ev.
Proof. unfold steps_all. by rewrite foldl_app. Qed.

Lemma steps_all_settled cfg evs : settled_all (steps_all cfg evs).
Proof.
  induction evs as [|ev evs IH] using rev_ind.
  - apply mount_all_settled.
  - rewrite steps_all_snoc. by apply step_all_settled.
Qed.

(** X15: with all three listener effects running, at every point of the
    life of the component the live listeners are exactly the ones the
    state calls for: the profile document of the current user once auth
    is ready, the posts collection once auth is ready, the comments of the
    selected post once auth is ready and a post is selected; no listener
    is ever added over a live one or cancelled when not live, and
    unmounting leaves none. *)
Theorem listeners_follow_state :
  forall (cfg : Config) (evs : list event),
    let m := steps_all cfg evs in
    let st := state (core m) in
    listener_of is_user_doc (log (core m)) = wanted_user st
    /\ listener_of is_posts (log (core m)) = wanted_posts st
    /\ listener_of is_comments (log (core m)) = wanted_comments st
    /\ listener_of is_user_doc (log (core m) ++ unmount m) = Off
    /\ listener_of is_posts (log (core m) ++ unmount m) = Off
    /\ listener_of is_comments (log (core m) ++ unmount m) = Off.
Proof.
  intros cfg evs m st.
  destruct (steps_all_settled cfg evs)
    as (_ & _ & _ & Hlu & Hlp & Hlc & Hcu & Hcp & Hcc).
  fold m in Hlu, Hlp, Hlc, Hcu, Hcp, Hcc. fold st in Hlu, Hlp, Hlc, Hcu, Hcp, Hcc.
  destruct (wanted_user_shape st) as (Hwu1 & Hwu2 & Hwu3 & Hwu4).
  destruct (wanted_posts_shape st) as (Hwp1 & Hwp2 & Hwp3 & Hwp4).
  destruct (wanted_comments_shape st) as (Hwc1 & Hwc2 & Hwc3 & Hwc4).
  do 3 (split; [done|]).
  unfold unmount, listener_of. rewrite !foldl_app.
  fold (listener_of is_user_doc (log (core m))).
  fold (listener_of is_posts (log (core m))).
  fold (listener_of is_comments (log (core m))).
  rewrite Hlu, Hlp, Hlc, Hcu, Hcp, Hcc.
  split; [|split].
  - rewrite cancel_fold by done.
    rewrite quiet_for_fold by (by apply cancel_quiet_for).
    by rewrite quiet_for_fold by (by apply cancel_quiet_for).
  - rewrite (quiet_for_fold is_posts (cancel (wanted_user st)))
      by (by apply cancel_quiet_for).
    rewrite cancel_fold by done.
    by rewrite quiet_for_fold by (by apply cancel_quiet_for).
  - rewrite (quiet_for_fold is_comments (cancel (wanted_user st)))
      by (by apply cancel_quiet_for).
    rewrite (quiet_for_fold is_comments (cancel (wanted_posts st)))
      by (by apply cancel_quiet_for).
    by rewrite cancel_fold by done.
Qed.

(** ** The posts listener *)

Lemma quiet_for_posts_filter acts :
  Forall (quiet_for is_posts) acts ->
  List.filter adds_posts_listener acts = []
  /\ List.filter cancels_posts_listener acts = [].
Proof.
  induction 1 as [|a acts Ha _ [IH1 IH2]]; [done|].
  simpl. rewrite IH1, IH2.
  destruct a as [| | | | | | | | | |[]|]; try done;
    destruct ref; simpl in *; done.
Qed.

Lemma step_all_ready cfg m ev :
  settled_all m ->
  isAuthReady (state (core (step_all cfg m ev)))
  = isAuthReady (run (handle cfg (core m) ev) (state (core m))).
Proof.
  intros Hm.
  pose proof (step_all_settled cfg m ev Hm) as (_ & Hpd & _).
  rewrite <- Hpd. done.
Qed.

Lemma steps_all_posts_listener cfg evs :
  let m := steps_all cfg evs in
  length (List.filter adds_posts_listener (log (core m)))
  = (if isAuthReady (state (core m)) then 1 else 0)%nat
  /\ List.filter cancels_posts_listener (log (core m)) = [].
Proof.
  induction evs as [|ev evs IH] using rev_ind; [done|].
  rewrite steps_all_snoc.
  set (m := steps_all cfg evs) in *. simpl in IH.
  destruct IH as [IHa IHc].
  pose proof (steps_all_settled cfg evs) as Hm. fold m in Hm.
  pose proof (step_all_ready cfg m ev Hm) as Hready.
  pose proof (handle_ready cfg (core m) ev) as Hmono.
  destruct Hm as (Hud & Hpd & Hcd & Hlu & Hlp & Hlc & Hcu & Hcp & Hcc).
  destruct (wanted_user_shape (state (core m))) as (_ & _ & Hwu & _).
  destruct (wanted_comments_shape (state (core m))) as (_ & _ & _ & Hwc).
  set (st1 := run (handle cfg (core m) ev) (state (core m))) in *.
  destruct (userDataEffect_facts st1) as (_ & _ & Heu & _).
  destruct (commentsEffect_facts st1) as (_ & _ & _ & Hec & _).
  destruct (quiet_for_posts_filter (handle cfg (core m) ev)
              (handle_quiet_for is_posts cfg (core m) ev)) as [Hha Hhc].
  cbv zeta. rewrite Hready.
  unfold step_all, commit_all.
  cbn [core state comments_deps comments_cleanup log user_deps user_cleanup
       posts_deps posts_cleanup]. fold st1.
  rewrite Hcu, Hcp, Hcc, Hpd.
  set (u_same := bool_decide ((user st1, isAuthReady st1) = user_deps m)).
  set (c_same := bool_decide ((isAuthReady st1, selectedPostId st1)
                              = comments_deps (core m))).
  destruct (quiet_for_posts_filter _
              (if_quiet is_posts u_same _
                 (cancel_quiet_for is_posts _ Hwu))) as [Ha1 Hc1].
  destruct (quiet_for_posts_filter _
              (if_quiet is_posts c_same _
                 (cancel_quiet_for is_posts _ Hwc))) as [Ha2 Hc2].
  destruct (quiet_for_posts_filter _ (if_quiet is_posts u_same _ Heu))
    as [Ha3 Hc3].
  destruct (quiet_for_posts_filter _ (if_quiet is_posts c_same _ Hec))
    as [Ha4 Hc4].
  rewrite !List.filter_app, !length_app.
  rewrite IHa, IHc, Hha, Hhc, Ha1, Hc1, Ha2, Hc2, Ha3, Hc3, Ha4, Hc4.
  unfold wanted_posts, postsEffect.
  destruct (isAuthReady (state (core m))) eqn:H0, (isAuthReady st1) eqn:H1;
    simpl; try done.
  by specialize (Hmono eq_refl).
Qed.

(** X16: over the whole life of the mounted component the posts
    listener is added exactly once, when auth becomes ready, and is never
    cancelled by any event. *)
Theorem posts_listener_added_once :
  forall (cfg : Config) (evs : list event),
    let m := steps_all cfg evs in
    length (List.filter adds_posts_listener (log (core m)))
    = (if isAuthReady (state (core m)) then 1 else 0)%nat
    /\ List.filter cancels_posts_listener (log (core m)) = []
    /\ (length (List.filter adds_posts_listener (log (core m))) <= 1)%nat.
Proof.
  intros cfg evs m.
  destruct (steps_all_posts_listener cfg evs) as [Ha Hc]. fold m in Ha, Hc.
  split; [done|]. split; [done|].
  rewrite Ha. destruct (isAuthReady (state (core m))); lia.
Qed.

(** ** What a commit of the three effects keeps *)

Lemma commit_all_committed m :
  state (core (commit_all m)) = run (committed m) (state (core m))
  /\ log (core (commit_all m)) = log (core m) ++ committed m.
Proof. done. Qed.

Lemma effect_like_run acts st :
  Forall effect_like acts ->
  let st' := run acts st in
  user st' = user st
  /\ isAuthReady st' = isAuthReady st
  /\ selectedPostId st' = selectedPostId st
  /\ view st' = view st
  /\ posts st' = posts st
  /\ error st' = error st
  /\ (userData st = None -> userData st' = None).
Proof.
  intros Hall. revert st.
  induction Hall as [|a acts Ha _ IH]; intros st; [done|].
  simpl. destruct (IH (apply st a)) as (-> & -> & -> & -> & -> & -> & Hd).
  destruct a as [|[d|]| | | | | | | | | |]; simpl in *; try done;
    repeat split; auto.
Qed.

Lemma keeps_profile_run acts st :
  Forall keeps_profile acts -> userData (run acts st) = userData st.
Proof.
  intros Hall. revert st.
  induction Hall as [|a acts Ha _ IH]; intros st; [done|].
  simpl. rewrite IH. by destruct a.
Qed.

Lemma cancel_keeps_profile s : Forall keeps_profile (cancel s).
Proof. destruct s; repeat constructor. Qed.

Lemma keeps_profile_effect_like acts :
  Forall keeps_profile acts -> Forall effect_like acts.
Proof. intros H. eapply Forall_impl; [exact H|]. by intros []. Qed.

Lemma if_list {P : action -> Prop} (b : bool) acts :
  Forall P acts -> Forall P (if b then [] else acts).
Proof. by destruct b. Qed.

Lemma userDataEffect_effect_like u ready :
  Forall effect_like (body (userDataEffect u ready))
  /\ (is_Some u -> Forall keeps_profile (body (userDataEffect u ready))).
Proof.
  unfold userDataEffect. destruct u, ready; simpl; split;
    try (by intros [? ?]); repeat constructor.
Qed.

Lemma postsEffect_keeps_profile ready :
  Forall keeps_profile (body (postsEffect ready)).
Proof. unfold postsEffect. destruct ready; repeat constructor. Qed.

Lemma commentsEffect_keeps_profile ready selected :
  Forall keeps_profile (body (commentsEffect ready selected)).
Proof.
  unfold commentsEffect. destruct ready, selected as [[|]|]; repeat constructor.
Qed.

Lemma committed_effect_like m :
  (exists su sp sc, user_cleanup m = cancel su /\ posts_cleanup m = cancel sp
                    /\ comments_cleanup (core m) = cancel sc) ->
  Forall effect_like (committed m).
Proof.
  intros (su & sp & sc & Hu & Hp & Hc).
  unfold committed. rewrite Hu, Hp, Hc.
  apply Forall_app; split;
    [apply if_list, keeps_profile_effect_like, cancel_keeps_profile|].
  apply Forall_app; split;
    [apply if_list, keeps_profile_effect_like, cancel_keeps_profile|].
  apply Forall_app; split;
    [apply if_list, keeps_profile_effect_like, cancel_keeps_profile|].
  apply Forall_app; split; [apply if_list, userDataEffect_effect_like|].
  apply Forall_app; split;
    [apply if_list, keeps_profile_effect_like, postsEffect_keeps_profile|].
  apply if_list, keeps_profile_effect_like, commentsEffect_keeps_profile.
Qed.

Lemma committed_keeps_profile m :
  (exists su sp sc, user_cleanup m = cancel su /\ posts_cleanup m = cancel sp
                    /\ comments_cleanup (core m) = cancel sc) ->
  is_Some (user (state (core m))) ->
  Forall keeps_profile (committed m).
Proof.
  intros (su & sp & sc & Hu & Hp & Hc) Huser.
  unfold committed. rewrite Hu, Hp, Hc.
  apply Forall_app; split; [apply if_list, cancel_keeps_profile|].
  apply Forall_app; split; [apply if_list, cancel_keeps_profile|].
  apply Forall_app; split; [apply if_list, cancel_keeps_profile|].
  apply Forall_app; split;
    [apply if_list; by apply userDataEffect_effect_like|].
  apply Forall_app; split; [apply if_list, postsEffect_keeps_profile|].
  apply if_list, commentsEffect_keeps_profile.
Qed.

Lemma handled_all_cleanups cfg m ev :
  settled_all m ->
  exists su sp sc,
    user_cleanup (handled_all cfg m ev) = cancel su
    /\ posts_cleanup (handled_all cfg m ev) = cancel sp
    /\ comments_cleanup (core (handled_all cfg m ev)) = cancel sc.
Proof.
  intros (_ & _ & _ & _ & _ & _ & Hu & Hp & Hc).
  unfold handled_all, handled.
  cbn [core user_cleanup posts_cleanup comments_cleanup].
  eexists _, _, _. split; [exact Hu|]. split; [exact Hp|exact Hc].
Qed.

(** The state after a step, seen from the state the handler left. *)
Lemma step_all_frame cfg m ev :
  settled_all m ->
  let st1 := run (handle cfg (core m) ev) (state (core m)) in
  let st' := state (core (step_all cfg m ev)) in
  user st' = user st1
  /\ isAuthReady st' = isAuthReady st1
  /\ selectedPostId st' = selectedPostId st1
  /\ view st' = view st1
  /\ posts st' = posts st1
  /\ error st' = error st1
  /\ (userData st1 = None -> userData st' = None)
  /\ (is_Some (user st1) -> userData st' = userData st1).
Proof.
  intros Hm st1 st'. unfold st'.
  rewrite step_all_handled.
  destruct (commit_all_committed (handled_all cfg m ev)) as [-> _].
  pose proof (handled_all_cleanups cfg m ev Hm) as Hcl.
  destruct (effect_like_run (committed (handled_all cfg m ev)) st1
              (committed_effect_like _ Hcl))
    as (Hu & Hr & Hs & Hv & Hp & He & Hd).
  change (state (core (handled_all cfg m ev))) with st1.
  do 7 (split; [done|]).
  intros Huser. apply keeps_profile_run.
  by apply committed_keeps_profile.
Qed.

Lemma step_all_listeners cfg m ev :
  settled_all m ->
  let st' := state (core (step_all cfg m ev)) in
  listener_of is_user_doc (log (core (step_all cfg m ev))) = wanted_user st'
  /\ listener_of is_posts (log (core (step_all cfg m ev))) = wanted_posts st'
  /\ listener_of is_comments (log (core (step_all cfg m ev)))
     = wanted_comments st'.
Proof.
  intros Hm.
  by destruct (step_all_settled cfg m ev Hm)
    as (_ & _ & _ & Hlu & Hlp & Hlc & _).
Qed.

(** ** Sign-out and change of user, with all three effects *)

(** X17: a sign-out that resolves clears the user and the profile,
    shows Home and cancels the listener on the profile document; it
    keeps the selected post, and the posts listener and the comments
    listener of the selected post stay as they were. *)
Theorem sign_out_keeps_other_listeners :
  forall (cfg : Config) (evs : list event) (anon_r : result),
    let m := steps_all cfg evs in
    let m' := step_all cfg m (ClickSignOut Resolved anon_r) in
    user (state (core m')) = None
    /\ userData (state (core m')) = None
    /\ view (state (core m')) = "HOME"%string
    /\ selectedPostId (state (core m')) = selectedPostId (state (core m))
    /\ isAuthReady (state (core m')) = isAuthReady (state (core m))
    /\ listener_of is_user_doc (log (core m')) = Off
    /\ listener_of is_posts (log (core m'))
       = listener_of is_posts (log (core m))
    /\ listener_of is_comments (log (core m'))
       = listener_of is_comments (log (core m)).
Proof.
  intros cfg evs anon_r m m'.
  pose proof (steps_all_settled cfg evs) as Hm. fold m in Hm.
  destruct (step_all_frame cfg m (ClickSignOut Resolved anon_r) Hm)
    as (Hu & Hr & Hs & Hv & _ & _ & Hd & _).
  destruct (step_all_listeners cfg m (ClickSignOut Resolved anon_r) Hm)
    as (Hlu & Hlp & Hlc).
  destruct Hm as (_ & _ & _ & Hlu0 & Hlp0 & Hlc0 & _).
  fold m' in Hu, Hr, Hs, Hv, Hd, Hlu, Hlp, Hlc.
  assert (user (state (core m')) = None) as Hu' by (by destruct anon_r).
  assert (isAuthReady (state (core m')) = isAuthReady (state (core m)))
    as Hr' by (by destruct anon_r).
  assert (selectedPostId (state (core m')) = selectedPostId (state (core m)))
    as Hs' by (by destruct anon_r).
  split; [done|].
  split; [apply Hd; by destruct anon_r|].
  split; [by destruct anon_r|].
  split; [done|]. split; [done|].
  rewrite Hlu, Hlp, Hlc, Hlp0, Hlc0.
  unfold wanted_user, wanted_posts, wanted_comments.
  by rewrite Hu', Hr', Hs'.
Qed.

(** X18: when the auth listener is called with a user, that user
    becomes the current one, auth is ready and the profile listener is
    the one on that user's document; the local profile is left as it was,
    so after a change of user the profile of the previous one stays until
    the first snapshot of the new document. *)
Theorem new_user_keeps_old_profile :
  forall (cfg : Config) (evs : list event) (u : User) (token_r anon_r : result),
    let m := steps_all cfg evs in
    let m' := step_all cfg m (AuthStateChanged (Some u) token_r anon_r) in
    user (state (core m')) = Some u
    /\ isAuthReady (state (core m')) = true
    /\ userData (state (core m')) = userData (state (core m))
    /\ listener_of is_user_doc (log (core m')) = On (UserDoc (uid u)).
Proof.
  intros cfg evs u token_r anon_r m m'.
  pose proof (steps_all_settled cfg evs) as Hm. fold m in Hm.
  destruct (step_all_frame cfg m (AuthStateChanged (Some u) token_r anon_r) Hm)
    as (Hu & Hr & _ & _ & _ & _ & _ & Hd).
  destruct (step_all_listeners cfg m
              (AuthStateChanged (Some u) token_r anon_r) Hm) as (Hlu & _).
  fold m' in Hu, Hr, Hd, Hlu.
  assert (user (state (core m')) = Some u) as Hu' by (by rewrite Hu).
  assert (isAuthReady (state (core m')) = true) as Hr' by (by rewrite Hr).
  split; [done|]. split; [done|].
  split; [rewrite Hd; [done|by eexists]|].
  rewrite Hlu. unfold wanted_user. by rewrite Hu', Hr'.
Qed.

(** ** Writes and the local lists *)

(** X19: a profile update, a post creation or a comment creation never
    changes the local profile, the posts list, the comment list, the user
    or the selection, and never touches the comments listener: what was
    written shows up only through a later snapshot.  When the handler
    made its call, loading ends switched off and the error is the
    message of a rejected write, or none after a resolved one. *)
Theorem writes_are_not_applied_locally :
  forall (cfg : Config) (evs : list event) (ev : event) (r : result),
    write_result ev = Some r ->
    let c := steps cfg evs in
    let c' := step cfg c ev in
    userData (state c') = userData (state c)
    /\ posts (state c') = posts (state c)
    /\ comments (state c') = comments (state c)
    /\ user (state c') = user (state c)
    /\ selectedPostId (state c') = selectedPostId (state c)
    /\ slot_of (log c') = slot_of (log c)
    /\ (handle cfg c ev <> [] ->
        loading (state c') = false
        /\ error (state c') = match r with
                              | Resolved => None
                              | Rejected message => Some message
                              end).
Proof.
  intros cfg evs ev r Hw c c'.
  assert (c' = handled cfg c ev) as ->.
  { apply step_no_dep_change; [apply steps_settled| |];
      destruct ev; try discriminate; simpl; unfold_handlers;
      handler_cases; done. }
  unfold handled; cbn [state log].
  rewrite slot_of_app, quiet_slot by apply handle_quiet.
  destruct ev; try discriminate; simpl in Hw; injection Hw as ->;
    simpl; unfold_handlers; handler_cases; try done.
Qed.

Lemma writes_are_not_applied_locally_witness :
  posts (state (step sample_config (steps sample_config reading_p1)
                     (AddComment "hello" "u1" (VStr "Alice") Resolved)))
  = posts (state (steps sample_config reading_p1))
  /\ comments (state (step sample_config (steps sample_config reading_p1)
                           (AddComment "hello" "u1" (VStr "Alice") Resolved)))
     = comments (state (steps sample_config reading_p1)).
Proof.
  destruct (writes_are_not_applied_locally sample_config reading_p1
              (AddComment "hello" "u1" (VStr "Alice") Resolved) Resolved
              eq_refl) as (_ & Hp & Hc & _).
  split; [exact Hp|exact Hc].
Defined.

(** ** Failure of the comments listener *)

(** X20: the error callback of the comments listener switches loading
    off and sets the error to "Failed to load comments."; it calls
    nothing in Firebase, the comment list, the posts and the selection
    stay, and in the mounted component the listener stays live. *)
Theorem comments_failure_keeps_list :
  forall (cfg : Config) (evs : list event) (st : AppState),
    let st' := run commentsError st in
    let c := steps cfg evs in
    let c' := step cfg c CommentsError in
    loading st' = false
    /\ error st' = Some "Failed to load comments."%string
    /\ firebase_calls commentsError = []
    /\ comments st' = comments st
    /\ posts st' = posts st
    /\ selectedPostId st' = selectedPostId st
    /\ view st' = view st
    /\ slot_of (log c') = slot_of (log c)
    /\ comments (state c') = comments (state c).
Proof.
  intros cfg evs st st' c c'.
  do 7 (split; [done|]).
  assert (c' = handled cfg c CommentsError) as ->.
  { apply step_no_dep_change; [apply steps_settled| |];
      simpl; by destruct (slot_of (log c)). }
  unfold handled; cbn [state log].
  rewrite slot_of_app, quiet_slot by apply handle_quiet.
  split; [done|]. simpl. by destruct (slot_of (log c)).
Qed.

(** ** Snapshots that come in order *)

Lemma same_key_sorted (R : Z -> Z -> Prop) k (docs : list QueryDocumentSnapshot) :
  (forall z, R z z) ->
  Forall (fun d => sort_key (with_id d) = k) docs ->
  Sorted (fun a b => R (sort_key a) (sort_key b)) (map with_id docs).
Proof.
  intros HR Hk. induction Hk as [|d docs Hd Hk IH]; simpl; [constructor|].
  constructor; [done|].
  destruct Hk as [|e docs He Hk]; simpl; constructor.
  rewrite Hd, He. apply HR.
Qed.

(** X21: a snapshot whose documents already come in the order of the
    listener is listed in the order it came; so is one whose documents
    all have the same sort key, as when none has a timestamp yet. *)
Theorem ordered_snapshot_is_kept :
  forall (st : AppState) (docs : list QueryDocumentSnapshot),
    (Sorted (fun a b => sort_key b <= sort_key a) (map with_id docs) ->
     posts (run (postsSnapshot docs) st) = map with_id docs)
    /\ (Sorted (fun a b => sort_key a <= sort_key b) (map with_id docs) ->
        comments (run (commentsSnapshot docs) st) = map with_id docs)
    /\ (forall k,
          Forall (fun d => sort_key (with_id d) = k) docs ->
          posts (run (postsSnapshot docs) st) = map with_id docs
          /\ comments (run (commentsSnapshot docs) st) = map with_id docs).
Proof.
  intros st docs.
  assert (Sorted (fun a b => sort_key b <= sort_key a) (map with_id docs) ->
          posts (run (postsSnapshot docs) st) = map with_id docs) as Hposts.
  { intros Hs. simpl. symmetry. by apply posts_order_unique. }
  assert (Sorted (fun a b => sort_key a <= sort_key b) (map with_id docs) ->
          comments (run (commentsSnapshot docs) st) = map with_id docs)
    as Hcomments.
  { intros Hs. simpl. symmetry. by apply comments_order_unique. }
  split; [done|]. split; [done|].
  intros k Hk.
  split.
  - apply Hposts.
    apply (same_key_sorted (fun x y => y <= x) k); [intros z; lia|done].
  - apply Hcomments.
    apply (same_key_sorted (fun x y => x <= y) k); [intros z; lia|done].
Qed.

Lemma ordered_snapshot_is_kept_witness :
  posts (run (postsSnapshot [second_post; first_post]) initial)
  = map with_id [second_post; first_post].
Proof.
  apply (proj1 (ordered_snapshot_is_kept initial [second_post; first_post])).
  apply (bool_decide_unpack _). vm_compute. exact I.
Defined.
